(** * airflow.utils.operator_helpers

    A shallow embedding of [airflow/utils/operator_helpers.py]: the export of
    a task context as a flat string-to-string mapping
    ([context_to_airflow_vars]), the signature-driven filtering of keyword
    arguments ([KeywordParameters.determine], [determine_kwargs]) and the
    execution runner that drains generator callables
    ([ExecutionCallableRunner]).

    Python dictionaries that are only compared and looked up are finite maps
    ([gmap]); a dictionary whose iteration order matters is the list of its
    items.  Exceptions are values of [exn]; a fallible computation returns
    [result A]. *)

From Stdlib Require Import ZArith String Ascii List DecimalString.
From stdpp Require Import gmap strings list fin_maps.

Set Warnings "-register-all".

Local Open Scope string_scope.
Local Open Scope list_scope.
Local Open Scope Z_scope.

(** ** Python values *)

Module Py.

(** [datetime.datetime]: the fields the ISO rendering reads.  [utcoffset] is
    the offset east of UTC in seconds, [None] for a naive datetime. *)
Record datetime : Type := Datetime {
  year : Z;
  month : Z;
  day : Z;
  hour : Z;
  minute : Z;
  second : Z;
  microsecond : Z;
  utcoffset : option Z
}.

(** The values that can sit in a context, as attributes of its objects or in
    the mapping returned by the settings hook.  [PyObject] is an instance of
    any other class: its truth value ([__bool__]), its [str()] form and its
    instance attributes in definition order. *)
Inductive pyval : Type :=
| PyNone
| PyBool (b : bool)
| PyInt (n : Z)
| PyStr (s : string)
| PyDatetime (d : datetime)
| PyList (items : list pyval)
| PyObject (o_truthy : bool) (o_str : string) (o_attrs : list (string * pyval)).

(** The exceptions raised by the module, with the data their messages are
    formatted from. *)
Inductive exn : Type :=
| TypeError_key_must_be_string (key : pyval)
| TypeError_value_must_be_string (key : string) (value : pyval)
| TypeError_join_item (index : nat) (item : pyval)
| ValueError_reserved (name : string).

Inductive exn_class : Type := TypeError | ValueError.

Definition class_of (e : exn) : exn_class :=
  match e with
  | TypeError_key_must_be_string _ => TypeError
  | TypeError_value_must_be_string _ _ => TypeError
  | TypeError_join_item _ _ => TypeError
  | ValueError_reserved _ => ValueError
  end.

(** A computation that either raises or returns. *)
Inductive result (A : Type) : Type :=
| Raise (e : exn)
| Ok (a : A).
Arguments Raise {A} e.
Arguments Ok {A} a.

Definition bind {A B : Type} (m : result A) (k : A -> result B) : result B :=
  match m with
  | Raise e => Raise e
  | Ok a => k a
  end.

Definition raises {A : Type} (m : result A) : bool :=
  match m with Raise _ => true | Ok _ => false end.

(** [bool(v)] *)
Definition truthy (v : pyval) : bool :=
  match v with
  | PyNone => false
  | PyBool b => b
  | PyInt n => negb (n =? 0)
  | PyStr s => negb (String.eqb s "")
  | PyDatetime _ => true
  | PyList items => match items with [] => false | _ :: _ => true end
  | PyObject t _ _ => t
  end.

Fixpoint assoc {A : Type} (k : string) (l : list (string * A)) : option A :=
  match l with
  | [] => None
  | (k', v) :: rest => if String.eqb k k' then Some v else assoc k rest
  end.

(** [getattr(v, name, None)].  The built-in values carry none of the
    attribute names this module asks for. *)
Definition getattr (v : pyval) (name : string) : pyval :=
  match v with
  | PyObject _ _ attrs => default PyNone (assoc name attrs)
  | _ => PyNone
  end.

(** Decimal rendering of integers, as [str(int)] and the [%d] conversions. *)
Definition str_of_Z (n : Z) : string := NilZero.string_of_int (Z.to_int n).

Fixpoint zeros (n : nat) : string :=
  match n with
  | O => ""
  | S n' => String "0" (zeros n')
  end.

(** [%0<width>d] for a non-negative number *)
Definition zfill (width : nat) (n : Z) : string :=
  let s := str_of_Z n in
  zeros (width - String.length s)%nat +:+ s.

(** [datetime.isoformat()] with the default separator and timespec:
    [YYYY-MM-DDTHH:MM:SS], then [.ffffff] when the microsecond is not zero,
    then the offset [+HH:MM] (with [:SS] when it has seconds) for an aware
    datetime. *)
Definition format_offset (off : Z) : string :=
  let sign := if off <? 0 then "-" else "+" in
  let a := Z.abs off in
  let hh := a / 3600 in
  let mm := (a mod 3600) / 60 in
  let ss := a mod 60 in
  sign +:+ zfill 2 hh +:+ ":" +:+ zfill 2 mm
       +:+ (if ss =? 0 then "" else ":" +:+ zfill 2 ss).

Definition isoformat_sep (sep : string) (d : datetime) : string :=
  zfill 4 (year d) +:+ "-" +:+ zfill 2 (month d) +:+ "-" +:+ zfill 2 (day d)
    +:+ sep +:+ zfill 2 (hour d) +:+ ":" +:+ zfill 2 (minute d)
    +:+ ":" +:+ zfill 2 (second d)
    +:+ (if microsecond d =? 0 then "" else "." +:+ zfill 6 (microsecond d))
    +:+ match utcoffset d with
        | None => ""
        | Some off => format_offset off
        end.

Definition isoformat (d : datetime) : string := isoformat_sep "T" d.

(** [str(v)].  A datetime prints as its ISO form with a space between date
    and time.  A list prints its elements between brackets, a string element
    in quotes (text without quotes or escapes); the export below joins a list
    itself and never asks for this form. *)
Fixpoint str (v : pyval) : string :=
  match v with
  | PyNone => "None"
  | PyBool b => if b then "True" else "False"
  | PyInt n => str_of_Z n
  | PyStr s => s
  | PyDatetime d => isoformat_sep " " d
  | PyList items =>
      let repr x :=
        match x with
        | PyStr s => "'" +:+ s +:+ "'"
        | _ => str x
        end in
      "[" +:+ String.concat ", " (List.map repr items) +:+ "]"
  | PyObject _ s _ => s
  end.

(** The elements of a list handed to [str.join]: each has to be a [str],
    the first that is not raises [TypeError]. *)
Fixpoint join_items (index : nat) (items : list pyval) : result (list string) :=
  match items with
  | [] => Ok []
  | PyStr s :: rest => bind (join_items (S index) rest) (fun ss => Ok (s :: ss))
  | v :: _ => Raise (TypeError_join_item index v)
  end.

(** [sep.join(items)] *)
Definition join (sep : string) (items : list pyval) : result string :=
  bind (join_items 0 items) (fun ss => Ok (String.concat sep ss)).

Definition ascii_upper (c : ascii) : ascii :=
  let n := nat_of_ascii c in
  if (97 <=? n)%nat && (n <=? 122)%nat then ascii_of_nat (n - 32) else c.

(** [s.upper()] on ASCII text *)
Fixpoint upper (s : string) : string :=
  match s with
  | EmptyString => EmptyString
  | String c rest => String (ascii_upper c) (upper rest)
  end.

(** [s.startswith(p)] *)
Definition startswith (s p : string) : bool := String.prefix p s.

End Py.

Import Py.

(** ** Context export: [context_to_airflow_vars] *)

Definition DEFAULT_FORMAT_PREFIX : string := "airflow.ctx.".
Definition ENV_VAR_FORMAT_PREFIX : string := "AIRFLOW_CTX_".

(** The keys of [AIRFLOW_VAR_NAME_FORMAT_MAPPING] and of its inner
    dictionaries. *)
Inductive mapping_key : Type :=
| AIRFLOW_CONTEXT_DAG_ID
| AIRFLOW_CONTEXT_TASK_ID
| AIRFLOW_CONTEXT_LOGICAL_DATE
| AIRFLOW_CONTEXT_TRY_NUMBER
| AIRFLOW_CONTEXT_DAG_RUN_ID
| AIRFLOW_CONTEXT_DAG_OWNER
| AIRFLOW_CONTEXT_DAG_EMAIL.

Inductive name_format : Type :=
| default_format   (* "default" *)
| env_var_format.  (* "env_var_format" *)

Definition AIRFLOW_VAR_NAME_FORMAT_MAPPING (k : mapping_key) (f : name_format) : string :=
  match k, f with
  | AIRFLOW_CONTEXT_DAG_ID, default_format => DEFAULT_FORMAT_PREFIX +:+ "dag_id"
  | AIRFLOW_CONTEXT_DAG_ID, env_var_format => ENV_VAR_FORMAT_PREFIX +:+ "DAG_ID"
  | AIRFLOW_CONTEXT_TASK_ID, default_format => DEFAULT_FORMAT_PREFIX +:+ "task_id"
  | AIRFLOW_CONTEXT_TASK_ID, env_var_format => ENV_VAR_FORMAT_PREFIX +:+ "TASK_ID"
  | AIRFLOW_CONTEXT_LOGICAL_DATE, default_format => DEFAULT_FORMAT_PREFIX +:+ "logical_date"
  | AIRFLOW_CONTEXT_LOGICAL_DATE, env_var_format => ENV_VAR_FORMAT_PREFIX +:+ "LOGICAL_DATE"
  | AIRFLOW_CONTEXT_TRY_NUMBER, default_format => DEFAULT_FORMAT_PREFIX +:+ "try_number"
  | AIRFLOW_CONTEXT_TRY_NUMBER, env_var_format => ENV_VAR_FORMAT_PREFIX +:+ "TRY_NUMBER"
  | AIRFLOW_CONTEXT_DAG_RUN_ID, default_format => DEFAULT_FORMAT_PREFIX +:+ "dag_run_id"
  | AIRFLOW_CONTEXT_DAG_RUN_ID, env_var_format => ENV_VAR_FORMAT_PREFIX +:+ "DAG_RUN_ID"
  | AIRFLOW_CONTEXT_DAG_OWNER, default_format => DEFAULT_FORMAT_PREFIX +:+ "dag_owner"
  | AIRFLOW_CONTEXT_DAG_OWNER, env_var_format => ENV_VAR_FORMAT_PREFIX +:+ "DAG_OWNER"
  | AIRFLOW_CONTEXT_DAG_EMAIL, default_format => DEFAULT_FORMAT_PREFIX +:+ "dag_email"
  | AIRFLOW_CONTEXT_DAG_EMAIL, env_var_format => ENV_VAR_FORMAT_PREFIX +:+ "DAG_EMAIL"
  end.

(** The part of [airflow.settings] the export reads: the hook
    [get_airflow_context_vars], given by the items of the dictionary it
    returns for a context, in iteration order. *)
Record settings_module : Type := Settings {
  get_airflow_context_vars : gmap string pyval -> list (pyval * pyval)
}.

(** [context.get(key)] *)
Definition context_get (context : gmap string pyval) (key : string) : pyval :=
  default PyNone (context !! key).

(** The name under which an extra variable is stored (lines 111-116). *)
Definition normalize_key (in_env_var_format : bool) (key : string) : string :=
  if in_env_var_format then
    if negb (startswith key ENV_VAR_FORMAT_PREFIX)
    then ENV_VAR_FORMAT_PREFIX +:+ upper key
    else key
  else
    if negb (startswith key DEFAULT_FORMAT_PREFIX)
    then DEFAULT_FORMAT_PREFIX +:+ key
    else key.

(** The loop over [context_params.items()] (lines 105-117). *)
Fixpoint add_context_params (in_env_var_format : bool)
    (items : list (pyval * pyval)) (params : gmap string string)
    : result (gmap string string) :=
  match items with
  | [] => Ok params
  | (key, value) :: rest =>
      match key with
      | PyStr k =>
          match value with
          | PyStr v =>
              add_context_params in_env_var_format rest
                (<[normalize_key in_env_var_format k := v]> params)
          | _ => Raise (TypeError_value_must_be_string k value)
          end
      | _ => Raise (TypeError_key_must_be_string key)
      end
  end.

(** The rendering of an attribute that is exported (lines 123-131). *)
Definition serialize (_attr : pyval) : result string :=
  match _attr with
  | PyStr s => Ok s
  | PyDatetime d => Ok (isoformat d)
  | PyList items => join "," items
  | _ => Ok (str _attr)
  end.

(** One round of the loop over [ops] (lines 120-131). *)
Definition export_attribute (fmt : name_format) (params : gmap string string)
    (op : pyval * string * mapping_key) : result (gmap string string) :=
  let '(subject, attr, key) := op in
  let _attr := getattr subject attr in
  if truthy subject && truthy _attr then
    let mapping_value := AIRFLOW_VAR_NAME_FORMAT_MAPPING key fmt in
    bind (serialize _attr) (fun s => Ok (<[mapping_value := s]> params))
  else Ok params.

Fixpoint export_ops (fmt : name_format)
    (ops : list (pyval * string * mapping_key)) (params : gmap string string)
    : result (gmap string string) :=
  match ops with
  | [] => Ok params
  | op :: rest => bind (export_attribute fmt params op) (export_ops fmt rest)
  end.

Definition context_ops (context : gmap string pyval)
    : list (pyval * string * mapping_key) :=
  let task := context_get context "task" in
  let task_instance := context_get context "task_instance" in
  let dag_run := context_get context "dag_run" in
  [ (task, "email", AIRFLOW_CONTEXT_DAG_EMAIL);
    (task, "owner", AIRFLOW_CONTEXT_DAG_OWNER);
    (task_instance, "dag_id", AIRFLOW_CONTEXT_DAG_ID);
    (task_instance, "task_id", AIRFLOW_CONTEXT_TASK_ID);
    (task_instance, "logical_date", AIRFLOW_CONTEXT_LOGICAL_DATE);
    (task_instance, "try_number", AIRFLOW_CONTEXT_TRY_NUMBER);
    (dag_run, "run_id", AIRFLOW_CONTEXT_DAG_RUN_ID) ].

Definition context_to_airflow_vars (settings : settings_module)
    (context : gmap string pyval) (in_env_var_format : bool)
    : result (gmap string string) :=
  let params : gmap string string := ∅ in
  let fmt := if in_env_var_format then env_var_format else default_format in
  let ops := context_ops context in
  let context_params := get_airflow_context_vars settings context in
  bind (add_context_params in_env_var_format context_params params)
       (export_ops fmt ops).

(** ** Keyword filtering: [KeywordParameters.determine], [determine_kwargs] *)

(** [inspect.Parameter.kind] *)
Inductive parameter_kind : Type :=
| POSITIONAL_ONLY
| POSITIONAL_OR_KEYWORD
| VAR_POSITIONAL
| KEYWORD_ONLY
| VAR_KEYWORD.

Global Instance parameter_kind_eq_dec : EqDecision parameter_kind.
Proof. solve_decision. Defined.

(** What [inspect.signature(func)] reads from a callable: the items of
    [signature.parameters], in declaration order. *)
Record signature : Type := Signature {
  parameters : list (string * parameter_kind)
}.

Record KeywordParameters : Type := KeywordParameters_init {
  _kwargs : gmap string pyval
}.

(** [any(p.kind == p.VAR_KEYWORD for p in signature.parameters.values())] *)
Definition has_wildcard_kwargs (sig : signature) : bool :=
  existsb (fun p => bool_decide (p.2 = VAR_KEYWORD)) (parameters sig).

(** The loop of lines 168-177 over the parameters it is handed. *)
Fixpoint check_args (params : list (string * parameter_kind))
    (kwargs : gmap string pyval) : result unit :=
  match params with
  | [] => Ok tt
  | (name, kind) :: rest =>
      match kind with
      | KEYWORD_ONLY => check_args rest kwargs
      | VAR_KEYWORD => check_args rest kwargs
      | _ =>
          if bool_decide (is_Some (kwargs !! name))
          then Raise (ValueError_reserved name)
          else check_args rest kwargs
      end
  end.

(** [{key: kwargs[key] for key in signature.parameters if key in kwargs}] *)
Definition filtered_kwargs (sig : signature) (kwargs : gmap string pyval)
    : gmap string pyval :=
  fold_left
    (fun acc key =>
       match kwargs !! key with
       | Some v => <[key := v]> acc
       | None => acc
       end)
    (List.map fst (parameters sig)) ∅.

Definition determine (func : signature) (args : list pyval)
    (kwargs : gmap string pyval) : result KeywordParameters :=
  bind (check_args (take (length args) (parameters func)) kwargs) (fun _ =>
    if has_wildcard_kwargs func
    then Ok (KeywordParameters_init kwargs)
    else Ok (KeywordParameters_init (filtered_kwargs func kwargs))).

Definition unpacking (self : KeywordParameters) : gmap string pyval :=
  _kwargs self.

Definition determine_kwargs (func : signature) (args : list pyval)
    (kwargs : gmap string pyval) : result (gmap string pyval) :=
  bind (determine func args kwargs) (fun kp => Ok (unpacking kp)).

(** ** The execution runner: [ExecutionCallableRunner] *)

(** The [Metadata] event the runner imports from the SDK: the asset it is
    about, the extra payload and an optional alias.  Assets and aliases are
    identified by name. *)
Record Metadata : Type := Metadata_init {
  asset : string;
  extra : gmap string pyval;
  alias : option string
}.

(** A value a task generator yields: an instance of [Metadata], or anything
    else. *)
Inductive yield_value : Type :=
| YMetadata (m : Metadata)
| YOther (v : pyval).

(** The two operations of [OutletEventAccessorsProtocol] the runner performs
    on [outlet_events]. *)
Class OutletEventAccessorsProtocol (S : Type) : Type := {
  (** [outlet_events[asset].extra.update(extra)] *)
  extra_update : string -> gmap string pyval -> S -> S;
  (** [outlet_events[alias].add(asset, extra=extra)] *)
  alias_add : string -> string -> gmap string pyval -> S -> S
}.

(** The calls made on the logger. *)
Inductive log_level : Type := WARNING | DEBUG.

Inductive log_arg : Type :=
| TypeOf (y : yield_value)   (* type(metadata) *)
| ValueOf (y : yield_value). (* metadata *)

Record log_record : Type := LogRecord {
  levelno : log_level;
  msg : string;
  arg : log_arg
}.

(** [logging.Logger]: whether DEBUG is enabled for it, and the records it
    has been handed, oldest first. *)
Record Logger : Type := Logger_init {
  debug_enabled : bool;
  records : list log_record
}.

Definition log (l : Logger) (r : log_record) : Logger :=
  {| debug_enabled := debug_enabled l; records := records l ++ [r] |}.

Definition isEnabledFor (l : Logger) (level : log_level) : bool :=
  match level with
  | WARNING => true
  | DEBUG => debug_enabled l
  end.

Section Runner.

Context {S : Type} `{OutletEventAccessorsProtocol S}.

(** A generator object, by what happens when it is resumed: its body
    returns, raises, or yields a value and suspends.  When it is resumed
    after a yield its body goes on, reading [outlet_events] as it is then. *)
Inductive generator : Type :=
| GReturn (value : pyval)
| GRaise (e : exn)
| GYield (y : yield_value) (resume : S -> generator).

(** A task callable: a plain function or a generator function
    ([inspect.isgeneratorfunction]).  Both read [outlet_events]. *)
Inductive callable : Type :=
| Function (body : list pyval -> gmap string pyval -> S -> result pyval)
| GeneratorFunction (body : list pyval -> gmap string pyval -> S -> generator).

Definition isgeneratorfunction (func : callable) : bool :=
  match func with
  | Function _ => false
  | GeneratorFunction _ => true
  end.

(** [func( *args, **kwargs)]: a plain function runs and returns or raises;
    a generator function returns a generator object. *)
Inductive returned : Type :=
| Completed (r : result pyval)
| GeneratorObject (start : S -> generator).

Definition call (func : callable) (args : list pyval)
    (kwargs : gmap string pyval) (outlet_events : S) : returned :=
  match func with
  | Function body => Completed (body args kwargs outlet_events)
  | GeneratorFunction body => GeneratorObject (body args kwargs)
  end.

(** The body of the [for] loop (lines 271-280) for one yielded value. *)
Definition handle (metadata : yield_value) (outlet_events : S) (logger : Logger)
    : S * Logger :=
  match metadata with
  | YMetadata m =>
      let outlet_events := extra_update (asset m) (extra m) outlet_events in
      let outlet_events :=
        match alias m with
        | Some a => alias_add a (asset m) (extra m) outlet_events
        | None => outlet_events
        end in
      (outlet_events, logger)
  | YOther _ =>
      let logger :=
        log logger
          (LogRecord WARNING "Ignoring unknown data of %r received from task"
                     (TypeOf metadata)) in
      let logger :=
        if isEnabledFor logger DEBUG
        then log logger (LogRecord DEBUG "Full yielded value: %r" (ValueOf metadata))
        else logger in
      (outlet_events, logger)
  end.

(** [for metadata in _run(): ...] followed by [return result]. *)
Fixpoint drain (g : generator) (outlet_events : S) (logger : Logger)
    : result pyval * S * Logger :=
  match g with
  | GReturn value => (Ok value, outlet_events, logger)
  | GRaise e => (Raise e, outlet_events, logger)
  | GYield metadata resume =>
      let '(outlet_events, logger) := handle metadata outlet_events logger in
      drain (resume outlet_events) outlet_events logger
  end.

Record _ExecutionCallableRunner : Type := _ExecutionCallableRunnerImpl {
  run : list pyval -> gmap string pyval -> result pyval * S * Logger
}.

Definition ExecutionCallableRunner (func : callable) (outlet_events : S)
    (logger : Logger) : _ExecutionCallableRunner :=
  {| run := fun args kwargs =>
       match call func args kwargs outlet_events with
       | Completed r =>
           (* not inspect.isgeneratorfunction(func) *)
           (r, outlet_events, logger)
       | GeneratorObject start =>
           drain (start outlet_events) outlet_events logger
       end |}.

End Runner.

Arguments generator : clear implicits.
Arguments callable : clear implicits.
Arguments returned : clear implicits.
Arguments _ExecutionCallableRunner : clear implicits.

(** * Vocabulary of the statements *)

(** ** Context export *)

(** The attribute an entry of [ops] reads, whether the entry is exported
    (its subject and its attribute are both truthy), and the name it is
    exported under. *)
Definition op_attr (op : pyval * string * mapping_key) : pyval :=
  getattr op.1.1 op.1.2.
Definition op_active (op : pyval * string * mapping_key) : bool :=
  truthy op.1.1 && truthy (op_attr op).
Definition op_name (fmt : name_format) (op : pyval * string * mapping_key) : string :=
  AIRFLOW_VAR_NAME_FORMAT_MAPPING op.2 fmt.

Definition format_of (in_env_var_format : bool) : name_format :=
  if in_env_var_format then env_var_format else default_format.

Definition is_str (v : pyval) : bool :=
  match v with PyStr _ => true | _ => false end.


(** The standard keys in the order the key scheme is documented in, with
    their documented names in both forms. *)
Definition standard_keys : list mapping_key :=
  [ AIRFLOW_CONTEXT_DAG_ID; AIRFLOW_CONTEXT_TASK_ID;
    AIRFLOW_CONTEXT_LOGICAL_DATE; AIRFLOW_CONTEXT_TRY_NUMBER;
    AIRFLOW_CONTEXT_DAG_RUN_ID; AIRFLOW_CONTEXT_DAG_OWNER;
    AIRFLOW_CONTEXT_DAG_EMAIL ].

Definition dotted_names : list string :=
  [ "airflow.ctx.dag_id"; "airflow.ctx.task_id"; "airflow.ctx.logical_date";
    "airflow.ctx.try_number"; "airflow.ctx.dag_run_id";
    "airflow.ctx.dag_owner"; "airflow.ctx.dag_email" ].

Definition upper_snake_names : list string :=
  [ "AIRFLOW_CTX_DAG_ID"; "AIRFLOW_CTX_TASK_ID"; "AIRFLOW_CTX_LOGICAL_DATE";
    "AIRFLOW_CTX_TRY_NUMBER"; "AIRFLOW_CTX_DAG_RUN_ID";
    "AIRFLOW_CTX_DAG_OWNER"; "AIRFLOW_CTX_DAG_EMAIL" ].

Definition documented_names (in_env_var_format : bool) : list string :=
  if in_env_var_format then upper_snake_names else dotted_names.

Definition prefix_of (in_env_var_format : bool) : string :=
  if in_env_var_format then ENV_VAR_FORMAT_PREFIX else DEFAULT_FORMAT_PREFIX.

(** An extra variable of the settings hook is stored under [name]. *)
Definition extra_named (in_env_var_format : bool) (items : list (pyval * pyval))
    (name : string) : Prop :=
  ∃ k v, (PyStr k, PyStr v) ∈ items ∧ normalize_key in_env_var_format k = name.

(** The reading of the export in which a standard key is present exactly
    when its subject and its attribute are truthy. *)
Definition standard_key_iff_attribute (settings : settings_module)
    (context : gmap string pyval) (in_env_var_format : bool) : Prop :=
  ∀ params, context_to_airflow_vars settings context in_env_var_format = Ok params →
  ∀ op, op ∈ context_ops context →
    is_Some (params !! op_name (format_of in_env_var_format) op)
    ↔ op_active op = true.

(** A hook that exports nothing (the default), and one that exports a
    variable named like a standard key. *)
Definition no_context_vars : settings_module := Settings (fun _ => []).
Definition dag_id_context_var : settings_module :=
  Settings (fun _ => [(PyStr "dag_id", PyStr "x")]).

(** The context of the export example: a task owned by alice and a task
    instance of dag d1 on its second try. *)
Definition alice_task : pyval :=
  PyObject true "<Task(BashOperator): t1>" [("owner", PyStr "alice")].
Definition d1_task_instance : pyval :=
  PyObject true "<TaskInstance: d1.t1>"
    [("dag_id", PyStr "d1"); ("try_number", PyInt 2)].
Definition alice_context : gmap string pyval :=
  <["task" := alice_task]> (<["task_instance" := d1_task_instance]> ∅).

(** A context with a list, a datetime and a falsy attribute: the task
    mails two addresses, the task instance is on try 0 of a dated run. *)
Definition mail_task : pyval :=
  PyObject true "<Task(BashOperator): t1>"
    [("email", PyList [PyStr "a@example.com"; PyStr "b@example.com"]);
     ("owner", PyStr "bob")].
Definition dated_task_instance : pyval :=
  PyObject true "<TaskInstance: d1.t1>"
    [("dag_id", PyStr "d1"); ("task_id", PyStr "t1");
     ("logical_date", PyDatetime (Datetime 2024 1 2 3 4 5 0 (Some 0)));
     ("try_number", PyInt 0)].
Definition manual_run : pyval :=
  PyObject true "<DagRun d1>" [("run_id", PyStr "manual__2024-01-02")].
Definition full_context : gmap string pyval :=
  <["task" := mail_task]> (<["task_instance" := dated_task_instance]>
    (<["dag_run" := manual_run]> ∅)).

(** Hooks with extra variables: one plain and one already prefixed; one
    with a value that is not a string; one named like a standard key of the
    default form. *)
Definition team_context_vars : settings_module :=
  Settings (fun _ => [(PyStr "team", PyStr "data");
                      (PyStr "airflow.ctx.region", PyStr "eu")]).
Definition bad_context_vars : settings_module :=
  Settings (fun _ => [(PyStr "team", PyStr "data"); (PyStr "retries", PyInt 3)]).
Definition owner_context_var : settings_module :=
  Settings (fun _ => [(PyStr "dag_owner", PyStr "nobody")]).

(** ** Keyword filtering *)

(** The declared parameter names of a callable. *)
Definition declared_names (func : signature) : list string :=
  List.map fst (parameters func).

(** The callable declares a [**kwargs] parameter. *)
Definition declares_wildcard (func : signature) : Prop :=
  ∃ name, (name, VAR_KEYWORD) ∈ parameters func.

(** A collision of the positional with the named arguments: one of the
    first [len(args)] declared parameters, neither keyword-only nor
    [**kwargs], has its name among the keys of [kwargs]. *)
Definition collision (func : signature) (args : list pyval)
    (kwargs : gmap string pyval) : Prop :=
  ∃ name kind,
    (name, kind) ∈ take (length args) (parameters func)
    ∧ kind ≠ KEYWORD_ONLY ∧ kind ≠ VAR_KEYWORD
    ∧ is_Some (kwargs !! name).

(** The restriction of [kwargs] to the declared parameter names. *)
Definition restriction (func : signature) (kwargs : gmap string pyval)
    : gmap string pyval :=
  filter (fun kv => kv.1 ∈ declared_names func) kwargs.

(** [def f(a, b, *, c)] and [def g(a, **kwargs)], and a keyword mapping. *)
Definition f_signature : signature :=
  Signature [("a", POSITIONAL_OR_KEYWORD); ("b", POSITIONAL_OR_KEYWORD);
             ("c", KEYWORD_ONLY)].
Definition g_signature : signature :=
  Signature [("a", POSITIONAL_OR_KEYWORD); ("kwargs", VAR_KEYWORD)].
Definition bcz_kwargs : gmap string pyval :=
  <["b" := PyInt 1]> (<["c" := PyInt 2]> (<["z" := PyInt 3]> ∅)).
Definition bc_kwargs : gmap string pyval :=
  <["b" := PyInt 1]> (<["c" := PyInt 2]> ∅).

(** ** The execution runner *)

Definition unknown_data_warning (y : yield_value) : log_record :=
  LogRecord WARNING "Ignoring unknown data of %r received from task" (TypeOf y).

Definition full_value_debug (y : yield_value) : log_record :=
  LogRecord DEBUG "Full yielded value: %r" (ValueOf y).

Definition is_metadata (y : yield_value) : bool :=
  match y with YMetadata _ => true | YOther _ => false end.

Definition is_warning (r : log_record) : bool :=
  match levelno r with WARNING => true | DEBUG => false end.

(** The records one yielded value adds to a logger. *)
Definition records_for (debug : bool) (y : yield_value) : list log_record :=
  match y with
  | YMetadata _ => []
  | YOther _ =>
      unknown_data_warning y :: (if debug then [full_value_debug y] else [])
  end.

Section RunnerVocabulary.

Context {S : Type} `{OutletEventAccessorsProtocol S}.

(** The sink after a metadata event: the payload is merged into the entry
    of the target and, when the event has an alias, the target is recorded
    under the alias with the payload. *)
Definition route (m : Metadata) (sink : S) : S :=
  match alias m with
  | Some a => alias_add a (asset m) (extra m) (extra_update (asset m) (extra m) sink)
  | None => extra_update (asset m) (extra m) sink
  end.

(** The sink after a yielded value: only metadata changes it. *)
Definition sink_after (sink : S) (y : yield_value) : S :=
  match y with
  | YMetadata m => route m sink
  | YOther _ => sink
  end.

(** The sinks after each of the yielded values, in yield order. *)
Fixpoint sinks_after (sink : S) (ys : list yield_value) : list S :=
  match ys with
  | [] => []
  | y :: ys => sink_after sink y :: sinks_after (sink_after sink y) ys
  end.

(** [produces g sinks ys out]: the generator [g], resumed after its yields
    with [outlet_events] as in [sinks], yields the values [ys] in this order
    and then completes with [out], its return value or the exception it
    raises. *)
Inductive produces : generator S -> list S -> list yield_value -> result pyval -> Prop :=
| produces_return value :
    produces (GReturn value) [] [] (Ok value)
| produces_raise e :
    produces (GRaise e) [] [] (Raise e)
| produces_yield y resume sink sinks ys out :
    produces (resume sink) sinks ys out ->
    produces (GYield y resume) (sink :: sinks) (y :: ys) out.

End RunnerVocabulary.

(** Modelled from the spec: the registered event sink, [OutletEventAccessors]
    of the SDK, of which this file has only the two calls the runner makes.
    It keeps the payload map of each target identifier, and the targets
    recorded under an alias with their payloads, oldest first. *)
Record outlet_event_store : Type := OutletEventStore {
  extras : gmap string (gmap string pyval);
  alias_events : list (string * string * gmap string pyval)
}.

Global Instance outlet_event_store_protocol
    : OutletEventAccessorsProtocol outlet_event_store :=
  {| extra_update a e s :=
       {| extras := <[a := e ∪ default ∅ (extras s !! a)]> (extras s);
          alias_events := alias_events s |};
     alias_add al a e s :=
       {| extras := extras s;
          alias_events := alias_events s ++ [(al, a, e)] |} |}.

Definition empty_store : outlet_event_store := OutletEventStore ∅ [].
Definition quiet_logger : Logger := Logger_init false [].

(** A plain task function that returns the number of its positional
    arguments, and a task generator that yields one metadata event with an
    alias, then the number 42, and returns ["done"]. *)
Definition count_args : callable outlet_event_store :=
  Function (fun args _ _ => Ok (PyInt (Z.of_nat (length args)))).

Definition rows_metadata : Metadata :=
  Metadata_init "s3://bucket/out" {["rows" := PyInt 3]} (Some "latest").

Definition emit_rows : callable outlet_event_store :=
  GeneratorFunction (fun _ _ _ =>
    GYield (YMetadata rows_metadata) (fun _ =>
    GYield (YOther (PyInt 42)) (fun _ =>
    GReturn (PyStr "done")))).

(** ** The forwarding wrapper: [make_kwargs_callable] *)

Section Wrapper.

Context {S : Type}.

(** A callable as the wrapper uses it: the signature [inspect.signature]
    reads from it, and what the call [func( *args, **kwargs)] does. *)
Record py_function : Type := PyFunction {
  inspect_signature : signature;
  invoke : list pyval -> gmap string pyval -> S -> returned S
}.

(** [make_kwargs_callable(func)] returns [kwargs_func].  [functools.wraps]
    gives it the attribute [__wrapped__], which [inspect.signature] follows:
    the wrapper has the signature of [func]. *)
Definition make_kwargs_callable (func : py_function) : py_function :=
  {| inspect_signature := inspect_signature func;
     invoke := fun args kwargs outlet_events =>
       match determine_kwargs (inspect_signature func) args kwargs with
       | Raise e => Completed (Raise e)
       | Ok kwargs => invoke func args kwargs outlet_events
       end |}.

End Wrapper.

Arguments py_function : clear implicits.

(** [def f(a, b, *, c)] returning the number of keyword arguments it is
    called with. *)
Definition f_function : py_function outlet_event_store :=
  PyFunction f_signature
    (fun _ kwargs _ => Completed (Ok (PyInt (Z.of_nat (size kwargs))))).

(** * Properties *)

(** ** Context export *)

Section ContextExport.

Implicit Types (params : gmap string string) (context : gmap string pyval).
Implicit Types (op : pyval * string * mapping_key) (fmt : name_format).

Lemma export_attribute_inactive fmt params op :
  op_active op = false → export_attribute fmt params op = Ok params.
Proof.
  destruct op as [[subject attr] key]. unfold op_active, op_attr; simpl.
  intros Hact. unfold export_attribute. by rewrite Hact.
Qed.

Lemma export_attribute_active fmt params op :
  op_active op = true →
  export_attribute fmt params op =
    bind (serialize (op_attr op)) (fun s => Ok (<[op_name fmt op := s]> params)).
Proof.
  destruct op as [[subject attr] key]. unfold op_active, op_attr, op_name; simpl.
  intros Hact. unfold export_attribute. by rewrite Hact.
Qed.

Lemma export_ops_lookup_other fmt ops : ∀ params params' k,
  export_ops fmt ops params = Ok params' →
  (∀ op, op ∈ ops → op_active op = true → op_name fmt op ≠ k) →
  params' !! k = params !! k.
Proof.
  induction ops as [|op ops IH]; intros params params' k Hrun Hother; simpl in Hrun.
  - by inversion Hrun.
  - destruct (op_active op) eqn:Hact.
    + rewrite (export_attribute_active _ _ _ Hact) in Hrun.
      destruct (serialize (op_attr op)) as [e|s]; simpl in Hrun; [done|].
      rewrite (IH _ _ k Hrun).
      * apply lookup_insert_ne, Hother; [apply list_elem_of_here | done].
      * intros op' Hin. apply Hother. by apply list_elem_of_further.
    + rewrite (export_attribute_inactive _ _ _ Hact) in Hrun. simpl in Hrun.
      apply (IH _ _ k Hrun). intros op' Hin. apply Hother.
      by apply list_elem_of_further.
Qed.

Lemma export_ops_lookup_active fmt ops : ∀ params params',
  export_ops fmt ops params = Ok params' →
  NoDup (List.map (op_name fmt) ops) →
  ∀ op, op ∈ ops → op_active op = true →
  ∃ s, serialize (op_attr op) = Ok s ∧ params' !! op_name fmt op = Some s.
Proof.
  induction ops as [|op0 ops IH]; intros params params' Hrun Hnd op Hin Hact.
  - by apply elem_of_nil in Hin.
  - simpl in Hrun, Hnd. apply NoDup_cons in Hnd as [Hfresh Hnd].
    apply elem_of_cons in Hin as [->|Hin].
    + rewrite (export_attribute_active _ _ _ Hact) in Hrun.
      destruct (serialize (op_attr op0)) as [e|s]; simpl in Hrun; [done|].
      exists s. split; [done|].
      rewrite (export_ops_lookup_other _ _ _ _ _ Hrun).
      * apply lookup_insert_eq.
      * intros op' Hin' _ Heq. apply Hfresh. rewrite <- Heq.
        apply list_elem_of_In, in_map, list_elem_of_In, Hin'.
    + destruct (export_attribute fmt params op0) as [e|params1] eqn:Hstep;
        simpl in Hrun; [done|].
      by apply (IH _ _ Hrun Hnd).
Qed.

Lemma context_ops_names_NoDup context fmt :
  NoDup (List.map (op_name fmt) (context_ops context)).
Proof.
  destruct fmt; unfold context_ops; simpl; unfold op_name; simpl;
    apply (bool_decide_unpack _); vm_compute; exact I.
Qed.

Lemma add_context_params_app env l1 : ∀ l2 params,
  add_context_params env (l1 ++ l2) params =
    bind (add_context_params env l1 params) (add_context_params env l2).
Proof.
  induction l1 as [|[key value] l1 IH]; intros l2 params; simpl; [done|].
  destruct key; try done. destruct value; done.
Qed.

Lemma add_context_params_lookup_other env items : ∀ params params' name,
  add_context_params env items params = Ok params' →
  (∀ k v, (PyStr k, v) ∈ items → normalize_key env k ≠ name) →
  params' !! name = params !! name.
Proof.
  induction items as [|[key value] items IH]; intros params params' name Hrun Hother;
    simpl in Hrun.
  - by inversion Hrun.
  - destruct key; try done. destruct value; try done.
    rewrite (IH _ _ name Hrun).
    + apply lookup_insert_ne. eapply Hother, list_elem_of_here.
    + intros k v Hin. eapply Hother, list_elem_of_further, Hin.
Qed.

Lemma add_context_params_is_Some env items : ∀ params params' name,
  add_context_params env items params = Ok params' →
  is_Some (params' !! name) ↔ is_Some (params !! name) ∨ extra_named env items name.
Proof.
  unfold extra_named.
  induction items as [|[key value] items IH]; intros params params' name Hrun;
    simpl in Hrun.
  - inversion Hrun; subst. split; [by left|].
    intros [?|(k & v & Hin & _)]; [done|]. by apply elem_of_nil in Hin.
  - destruct key; try done. destruct value; try done.
    rewrite (IH _ _ name Hrun). rewrite lookup_insert. split.
    + intros [Hhere|(k & v & Hin & Hk)].
      * case_decide as Heq; [|by left].
        right. eexists _, _. split; [apply list_elem_of_here | done].
      * right. exists k, v. split; [by apply list_elem_of_further | done].
    + intros [Hsome|(k & v & Hin & Hk)].
      * left. case_decide; [by eexists | done].
      * apply elem_of_cons in Hin as [Heq|Hin].
        -- inversion Heq; subst. left. rewrite decide_True; [by eexists | done].
        -- right. by exists k, v.
Qed.

Lemma add_context_params_raises env items : ∀ params,
  (∃ kv, kv ∈ items ∧ is_str kv.1 && is_str kv.2 = false) →
  ∃ e, class_of e = TypeError ∧ add_context_params env items params = Raise e.
Proof.
  induction items as [|[key value] items IH]; intros params (kv & Hin & Hbad).
  - by apply elem_of_nil in Hin.
  - simpl.
    destruct key; try (eexists; split; [|reflexivity]; reflexivity).
    destruct value; try (eexists; split; [|reflexivity]; reflexivity).
    apply IH. apply elem_of_cons in Hin as [->|Hin]; [done|]. by exists kv.
Qed.

Lemma normalize_key_prefix env k :
  normalize_key env k =
    if startswith k (prefix_of env) then k
    else prefix_of env +:+ (if env then upper k else k).
Proof.
  unfold normalize_key, prefix_of. destruct env;
    match goal with |- context [startswith ?a ?b] => destruct (startswith a b) end;
    reflexivity.
Qed.

Lemma join_items_Ok items : ∀ index ss,
  join_items index items = Ok ss → items = List.map PyStr ss.
Proof.
  induction items as [|v items IH]; intros index ss Hjoin; simpl in Hjoin.
  - by inversion Hjoin.
  - destruct v; try done.
    destruct (join_items (Datatypes.S index) items) as [e|ss'] eqn:Hrest;
      simpl in Hjoin; [done|].
    inversion Hjoin; subst. simpl. f_equal. by eapply IH.
Qed.

Lemma op_name_documented env op :
  op_name (format_of env) op ∈ documented_names env.
Proof.
  destruct op as [[subject attr] key].
  destruct env, key; apply (bool_decide_unpack _); vm_compute; exact I.
Qed.

Lemma op_name_inj_on context fmt op op' :
  op ∈ context_ops context → op' ∈ context_ops context →
  op_name fmt op = op_name fmt op' → op = op'.
Proof.
  intros Hin Hin' Heq.
  pose proof (context_ops_names_NoDup context fmt) as Hnd.
  revert Hin Hin' Hnd. generalize (context_ops context) as ops.
  induction ops as [|op0 ops IH]; intros Hin Hin' Hnd.
  - by apply elem_of_nil in Hin.
  - simpl in Hnd. apply NoDup_cons in Hnd as [Hfresh Hnd].
    apply elem_of_cons in Hin as [->|Hin]; apply elem_of_cons in Hin' as [->|Hin'].
    + done.
    + exfalso. apply Hfresh. rewrite Heq.
      apply list_elem_of_In, in_map, list_elem_of_In, Hin'.
    + exfalso. apply Hfresh. rewrite <- Heq.
      apply list_elem_of_In, in_map, list_elem_of_In, Hin.
    + by apply IH.
Qed.

(** What the export leaves under the name of an entry of [ops]: the
    rendering of its attribute when it is exported, and otherwise what the
    extra variables put there. *)
Lemma context_to_airflow_vars_standard settings context env params op :
  context_to_airflow_vars settings context env = Ok params →
  op ∈ context_ops context →
  ∃ params0,
    add_context_params env (get_airflow_context_vars settings context) ∅ = Ok params0
    ∧ if op_active op
      then ∃ s, serialize (op_attr op) = Ok s
                ∧ params !! op_name (format_of env) op = Some s
      else params !! op_name (format_of env) op
           = params0 !! op_name (format_of env) op.
Proof.
  unfold context_to_airflow_vars. intros Hrun Hin.
  destruct (add_context_params env _ ∅) as [e|params0] eqn:Hextra;
    cbn [bind] in Hrun; [done|].
  exists params0. split; [done|].
  fold (format_of env) in Hrun.
  destruct (op_active op) eqn:Hact.
  - exact (export_ops_lookup_active _ _ _ _ Hrun
             (context_ops_names_NoDup _ _) op Hin Hact).
  - eapply export_ops_lookup_other; [exact Hrun|].
    intros op' Hin' Hact' Heq.
    apply (op_name_inj_on context) in Heq; [|done..]. congruence.
Qed.

Lemma alice_export settings context task task_instance env :
  get_airflow_context_vars settings context = [] →
  context !! "task" = Some task →
  context !! "task_instance" = Some task_instance →
  truthy task = true →
  truthy task_instance = true →
  getattr task "owner" = PyStr "alice" →
  getattr task_instance "dag_id" = PyStr "d1" →
  getattr task_instance "try_number" = PyInt 2 →
  truthy (getattr task "email") = false →
  truthy (getattr task_instance "task_id") = false →
  truthy (getattr task_instance "logical_date") = false →
  truthy (context_get context "dag_run")
    && truthy (getattr (context_get context "dag_run") "run_id") = false →
  context_to_airflow_vars settings context env =
    Ok (<[op_name (format_of env) (task, "owner", AIRFLOW_CONTEXT_DAG_OWNER) := "alice"]>
       (<[op_name (format_of env) (task_instance, "dag_id", AIRFLOW_CONTEXT_DAG_ID) := "d1"]>
       (<[op_name (format_of env) (task_instance, "try_number", AIRFLOW_CONTEXT_TRY_NUMBER) := "2"]>
        ∅))).
Proof.
  intros Hvars Htask Hti Ht Hi Howner Hdag Htry Hemail Htid Hdate Hrun.
  unfold context_to_airflow_vars. rewrite Hvars. cbn [add_context_params bind].
  unfold context_ops, context_get in *. rewrite Htask, Hti.
  cbn [from_option id export_ops]. unfold export_attribute.
  rewrite Ht, Hi, Howner, Hdag, Htry, Hemail, Htid, Hdate, Hrun.
  cbn [truthy andb serialize bind].
  f_equal. destruct env; vm_compute; reflexivity.
Qed.

(** C1. The export uses the documented key scheme: the standard keys are
    named [airflow.ctx.dag_id], [airflow.ctx.task_id],
    [airflow.ctx.logical_date], [airflow.ctx.try_number],
    [airflow.ctx.dag_run_id], [airflow.ctx.dag_owner], [airflow.ctx.dag_email]
    in the default form and [AIRFLOW_CTX_DAG_ID], ... in the environment
    form; when the settings hook adds nothing, every key of the result is one
    of these names; and a context whose task is owned by alice, whose task
    instance has dag_id d1 and try_number 2, with no other exported
    attribute, is exported as exactly the three entries for dag_owner, dag_id
    and try_number, under the dotted names in the default form and under the
    [AIRFLOW_CTX_*] names in the environment form. *)
Theorem C1_documented_key_scheme :
  (∀ key, key ∈ standard_keys)
  ∧ List.map (fun key => AIRFLOW_VAR_NAME_FORMAT_MAPPING key default_format)
      standard_keys = dotted_names
  ∧ List.map (fun key => AIRFLOW_VAR_NAME_FORMAT_MAPPING key env_var_format)
      standard_keys = upper_snake_names
  ∧ (∀ settings context env params name,
       get_airflow_context_vars settings context = [] →
       context_to_airflow_vars settings context env = Ok params →
       is_Some (params !! name) → name ∈ documented_names env)
  ∧ (∀ settings context task task_instance,
       get_airflow_context_vars settings context = [] →
       context !! "task" = Some task →
       context !! "task_instance" = Some task_instance →
       truthy task = true →
       truthy task_instance = true →
       getattr task "owner" = PyStr "alice" →
       getattr task_instance "dag_id" = PyStr "d1" →
       getattr task_instance "try_number" = PyInt 2 →
       truthy (getattr task "email") = false →
       truthy (getattr task_instance "task_id") = false →
       truthy (getattr task_instance "logical_date") = false →
       truthy (context_get context "dag_run")
         && truthy (getattr (context_get context "dag_run") "run_id") = false →
       context_to_airflow_vars settings context false =
         Ok (<["airflow.ctx.dag_owner" := "alice"]>
            (<["airflow.ctx.dag_id" := "d1"]>
            (<["airflow.ctx.try_number" := "2"]> ∅)))
       ∧ context_to_airflow_vars settings context true =
         Ok (<["AIRFLOW_CTX_DAG_OWNER" := "alice"]>
            (<["AIRFLOW_CTX_DAG_ID" := "d1"]>
            (<["AIRFLOW_CTX_TRY_NUMBER" := "2"]> ∅)))).
Proof.
  split; [|split; [|split; [|split]]].
  - intros key. unfold standard_keys.
    destruct key; repeat first [apply list_elem_of_here | apply list_elem_of_further].
  - reflexivity.
  - reflexivity.
  - intros settings context env params name Hvars Hrun Hsome.
    destruct (decide (name ∈ List.map (op_name (format_of env)) (context_ops context)))
      as [Hin|Hnotin].
    + apply list_elem_of_In, in_map_iff in Hin as (op & <- & _).
      apply op_name_documented.
    + exfalso. unfold context_to_airflow_vars in Hrun. rewrite Hvars in Hrun.
      cbn [add_context_params bind] in Hrun. fold (format_of env) in Hrun.
      rewrite (export_ops_lookup_other _ _ _ _ name Hrun) in Hsome.
      * rewrite lookup_empty in Hsome. by destruct Hsome.
      * intros op Hin _ Heq. apply Hnotin. rewrite <- Heq.
        apply list_elem_of_In, in_map, list_elem_of_In, Hin.
  - intros settings context task task_instance Hvars Htask Hti Ht Hi Howner Hdag
      Htry Hemail Htid Hdate Hrun.
    split.
    + by rewrite (alice_export settings context task task_instance false).
    + by rewrite (alice_export settings context task task_instance true).
Qed.

Lemma C1_documented_key_scheme_witness :
  context_to_airflow_vars no_context_vars alice_context false =
    Ok (<["airflow.ctx.dag_owner" := "alice"]>
       (<["airflow.ctx.dag_id" := "d1"]>
       (<["airflow.ctx.try_number" := "2"]> ∅)))
  ∧ context_to_airflow_vars no_context_vars alice_context true =
    Ok (<["AIRFLOW_CTX_DAG_OWNER" := "alice"]>
       (<["AIRFLOW_CTX_DAG_ID" := "d1"]>
       (<["AIRFLOW_CTX_TRY_NUMBER" := "2"]> ∅))).
Proof.
  apply (proj2 (proj2 (proj2 (proj2 C1_documented_key_scheme)))
           no_context_vars alice_context alice_task d1_task_instance);
    reflexivity.
Defined.

(** C2. Every attribute the export writes is a string made from the
    attribute's value: a string is kept as it is, a datetime is rendered by
    [isoformat], a list is the comma-joined string of its (string) elements,
    and any other value is rendered by [str]. *)
Theorem C2_attribute_serialization settings context env params op :
  context_to_airflow_vars settings context env = Ok params →
  op ∈ context_ops context →
  op_active op = true →
  match op_attr op with
  | PyStr s => params !! op_name (format_of env) op = Some s
  | PyDatetime d => params !! op_name (format_of env) op = Some (isoformat d)
  | PyList items =>
      ∃ ss, items = List.map PyStr ss
            ∧ params !! op_name (format_of env) op = Some (String.concat "," ss)
  | v => params !! op_name (format_of env) op = Some (str v)
  end.
Proof.
  intros Hrun Hin Hact.
  destruct (context_to_airflow_vars_standard _ _ _ _ _ Hrun Hin)
    as (params0 & _ & Hop).
  rewrite Hact in Hop. destruct Hop as (s & Hser & Hlook).
  destruct (op_attr op) as [| b | n | s' | d | items | t o attrs];
    cbn [serialize] in Hser; try (by inversion Hser; subst).
  unfold join in Hser.
  destruct (join_items 0 items) as [e|ss] eqn:Hitems; cbn [bind] in Hser; [done|].
  inversion Hser; subst. exists ss. split; [|done].
  by eapply join_items_Ok.
Qed.

Lemma C2_attribute_serialization_witness :
  ∃ params,
    context_to_airflow_vars no_context_vars full_context false = Ok params
    ∧ (∃ ss, [PyStr "a@example.com"; PyStr "b@example.com"] = List.map PyStr ss
             ∧ params !! "airflow.ctx.dag_email" = Some (String.concat "," ss))
    ∧ params !! "airflow.ctx.logical_date" = Some "2024-01-02T03:04:05+00:00".
Proof.
  destruct (context_to_airflow_vars no_context_vars full_context false)
    as [e|params] eqn:Hrun; [by vm_compute in Hrun|].
  exists params. split; [done|]. split.
  - apply (C2_attribute_serialization no_context_vars full_context false params
             (mail_task, "email", AIRFLOW_CONTEXT_DAG_EMAIL) Hrun);
      [apply list_elem_of_here | reflexivity].
  - apply (C2_attribute_serialization no_context_vars full_context false params
             (dated_task_instance, "logical_date", AIRFLOW_CONTEXT_LOGICAL_DATE) Hrun);
      [|reflexivity].
    unfold context_ops.
    repeat first [apply list_elem_of_here | apply list_elem_of_further].
Defined.

(** C8, as stated, fails: with a settings hook that supplies the variable
    [dag_id], the key [airflow.ctx.dag_id] is in the export of the empty
    context, which has no task instance. *)
Lemma C8_counterexample :
  ¬ standard_key_iff_attribute dag_id_context_var ∅ false.
Proof.
  intros Hiff.
  assert (Hrun : context_to_airflow_vars dag_id_context_var ∅ false
                 = Ok (<["airflow.ctx.dag_id" := "x"]> ∅)) by reflexivity.
  assert (Hin : (PyNone, "dag_id", AIRFLOW_CONTEXT_DAG_ID)
                  ∈ context_ops (∅ : gmap string pyval)).
  { unfold context_ops.
    repeat first [apply list_elem_of_here | apply list_elem_of_further]. }
  destruct (Hiff _ Hrun _ Hin) as [Hact _].
  assert (Habsurd : op_active (PyNone, "dag_id", AIRFLOW_CONTEXT_DAG_ID) = true).
  { apply Hact. exists "x". reflexivity. }
  discriminate Habsurd.
Qed.

(** C8, amended. A standard key is in the result of the export exactly when
    its subject is truthy in the context and the attribute exists on it with
    a truthy value, or an extra variable of the settings hook is stored under
    that key.  An absent subject or attribute reads as [None], and [None],
    0, the empty string and the empty list are falsy, so such attributes
    are left out. *)
Theorem C8_standard_key_presence :
  (∀ settings context env params op,
     context_to_airflow_vars settings context env = Ok params →
     op ∈ context_ops context →
     is_Some (params !! op_name (format_of env) op)
     ↔ op_active op = true
       ∨ extra_named env (get_airflow_context_vars settings context)
           (op_name (format_of env) op))
  ∧ (∀ context key, context !! key = None → context_get context key = PyNone)
  ∧ (∀ t o attrs name,
       assoc name attrs = None → getattr (PyObject t o attrs) name = PyNone)
  ∧ (∀ name, getattr PyNone name = PyNone)
  ∧ truthy PyNone = false
  ∧ truthy (PyInt 0) = false
  ∧ truthy (PyStr "") = false
  ∧ truthy (PyList []) = false.
Proof.
  split; [|split; [|split; [|repeat split]]].
  - intros settings context env params op Hrun Hin.
    destruct (context_to_airflow_vars_standard _ _ _ _ _ Hrun Hin)
      as (params0 & Hextra & Hop).
    destruct (op_active op).
    + destruct Hop as (s & _ & ->). split; [by left | by eexists].
    + rewrite Hop, (add_context_params_is_Some _ _ _ _ _ Hextra), lookup_empty.
      split.
      * intros [Hnone|Hnamed]; [by destruct Hnone | by right].
      * intros [?|Hnamed]; [done | by right].
  - intros context key Hnone. unfold context_get. by rewrite Hnone.
  - intros t o attrs name Hnone. cbn [getattr]. by rewrite Hnone.
Qed.

Lemma C8_standard_key_presence_witness :
  is_Some ((<["airflow.ctx.dag_id" := "x"]> (∅ : gmap string string))
             !! "airflow.ctx.dag_id")
  ↔ op_active (PyNone, "dag_id", AIRFLOW_CONTEXT_DAG_ID) = true
    ∨ extra_named false [(PyStr "dag_id", PyStr "x")] "airflow.ctx.dag_id".
Proof.
  apply (proj1 C8_standard_key_presence dag_id_context_var ∅ false
           (<["airflow.ctx.dag_id" := "x"]> ∅)
           (PyNone, "dag_id", AIRFLOW_CONTEXT_DAG_ID)).
  - reflexivity.
  - unfold context_ops.
    repeat first [apply list_elem_of_here | apply list_elem_of_further].
Defined.

Lemma extra_variable_stored settings context env params l1 k v l2 :
  context_to_airflow_vars settings context env = Ok params →
  get_airflow_context_vars settings context = l1 ++ (PyStr k, PyStr v) :: l2 →
  (∀ k' v', (PyStr k', v') ∈ l2 → normalize_key env k' ≠ normalize_key env k) →
  (∀ op, op ∈ context_ops context → op_active op = true →
         op_name (format_of env) op ≠ normalize_key env k) →
  params !! normalize_key env k = Some v.
Proof.
  unfold context_to_airflow_vars. intros Hrun Hitems Hlast Hstd.
  rewrite Hitems, add_context_params_app in Hrun.
  destruct (add_context_params env l1 ∅) as [e|params1]; cbn [bind] in Hrun; [done|].
  cbn [add_context_params] in Hrun.
  destruct (add_context_params env l2 _) as [e|params0] eqn:Hrest;
    cbn [bind] in Hrun; [done|].
  fold (format_of env) in Hrun.
  rewrite (export_ops_lookup_other _ _ _ _ _ Hrun Hstd).
  rewrite (add_context_params_lookup_other _ _ _ _ _ Hrest Hlast).
  apply lookup_insert_eq.
Qed.

Lemma extra_variable_type_error settings context env :
  (∃ kv, kv ∈ get_airflow_context_vars settings context
         ∧ is_str kv.1 && is_str kv.2 = false) →
  ∃ e, class_of e = TypeError
       ∧ add_context_params env (get_airflow_context_vars settings context) ∅
         = Raise e
       ∧ context_to_airflow_vars settings context env = Raise e.
Proof.
  intros Hbad.
  destruct (add_context_params_raises env _ ∅ Hbad) as (e & Hclass & Hraise).
  exists e. split; [done|]. split; [done|].
  unfold context_to_airflow_vars. by rewrite Hraise.
Qed.

(** C9. The extra variables of [settings.get_airflow_context_vars] are
    stored under a normalized key: a key that starts with the prefix of the
    selected form is kept, any other key gets the prefix in front (and is
    upper-cased in the environment form); an extra variable whose key or
    value is not a string makes the export raise [TypeError] from the loop
    over the extra variables, before the standard keys; and the entry of a
    standard key whose attribute is exported holds the rendering of that
    attribute, whatever the extra variables stored there. *)
Theorem C9_extra_context_variables :
  (∀ env k,
     normalize_key env k =
       if startswith k (prefix_of env) then k
       else prefix_of env +:+ (if env then upper k else k))
  ∧ (∀ settings context env params l1 k v l2,
       context_to_airflow_vars settings context env = Ok params →
       get_airflow_context_vars settings context = l1 ++ (PyStr k, PyStr v) :: l2 →
       (∀ k' v', (PyStr k', v') ∈ l2 →
                 normalize_key env k' ≠ normalize_key env k) →
       (∀ op, op ∈ context_ops context → op_active op = true →
              op_name (format_of env) op ≠ normalize_key env k) →
       params !! normalize_key env k = Some v)
  ∧ (∀ settings context env,
       (∃ kv, kv ∈ get_airflow_context_vars settings context
              ∧ is_str kv.1 && is_str kv.2 = false) →
       ∃ e, class_of e = TypeError
            ∧ add_context_params env (get_airflow_context_vars settings context) ∅
              = Raise e
            ∧ context_to_airflow_vars settings context env = Raise e)
  ∧ (∀ settings context env params op,
       context_to_airflow_vars settings context env = Ok params →
       op ∈ context_ops context →
       op_active op = true →
       ∃ s, serialize (op_attr op) = Ok s
            ∧ params !! op_name (format_of env) op = Some s).
Proof.
  split; [|split; [|split]].
  - apply normalize_key_prefix.
  - apply extra_variable_stored.
  - apply extra_variable_type_error.
  - intros settings context env params op Hrun Hin Hact.
    destruct (context_to_airflow_vars_standard _ _ _ _ _ Hrun Hin)
      as (params0 & _ & Hop).
    by rewrite Hact in Hop.
Qed.

Lemma C9_extra_context_variables_witness :
  (∃ params,
     context_to_airflow_vars team_context_vars alice_context true = Ok params
     ∧ params !! "AIRFLOW_CTX_TEAM" = Some "data")
  ∧ (∃ e, class_of e = TypeError
          ∧ add_context_params false
              (get_airflow_context_vars bad_context_vars alice_context) ∅ = Raise e
          ∧ context_to_airflow_vars bad_context_vars alice_context false = Raise e)
  ∧ (∃ params s,
       context_to_airflow_vars owner_context_var alice_context false = Ok params
       ∧ serialize (PyStr "alice") = Ok s
       ∧ params !! "airflow.ctx.dag_owner" = Some s).
Proof.
  destruct C9_extra_context_variables as (_ & Hstored & Herror & Hstandard).
  split; [|split].
  - destruct (context_to_airflow_vars team_context_vars alice_context true)
      as [e|params] eqn:Hrun; [by vm_compute in Hrun|].
    exists params. split; [done|].
    apply (Hstored team_context_vars alice_context true params
             [] "team" "data" [(PyStr "airflow.ctx.region", PyStr "eu")] Hrun).
    + reflexivity.
    + intros k' v' Hin. apply list_elem_of_singleton in Hin.
      inversion Hin; subst. vm_compute. discriminate.
    + intros op Hin _. unfold context_ops in Hin.
      repeat (apply elem_of_cons in Hin as [->|Hin]; [vm_compute; discriminate|]).
      by apply elem_of_nil in Hin.
  - apply (Herror bad_context_vars alice_context false).
    exists (PyStr "retries", PyInt 3). split; [|reflexivity].
    apply list_elem_of_further, list_elem_of_here.
  - destruct (context_to_airflow_vars owner_context_var alice_context false)
      as [e|params] eqn:Hrun; [by vm_compute in Hrun|].
    destruct (Hstandard owner_context_var alice_context false params
                (alice_task, "owner", AIRFLOW_CONTEXT_DAG_OWNER) Hrun)
      as (s & Hser & Hlook).
    + unfold context_ops.
      repeat first [apply list_elem_of_here | apply list_elem_of_further].
    + reflexivity.
    + exists params, s. by split.
Defined.

End ContextExport.

(** ** Keyword filtering *)

Section Determine.

Implicit Types (func : signature) (args : list pyval).
Implicit Types (kwargs : gmap string pyval).

Lemma has_wildcard_kwargs_spec func :
  has_wildcard_kwargs func = true ↔ declares_wildcard func.
Proof.
  unfold has_wildcard_kwargs, declares_wildcard. rewrite existsb_exists. split.
  - intros ([name kind] & Hin & Hkind). apply bool_decide_eq_true in Hkind.
    simpl in Hkind; subst. exists name. by apply list_elem_of_In.
  - intros (name & Hin). exists (name, VAR_KEYWORD). split.
    + by apply list_elem_of_In.
    + by apply bool_decide_eq_true.
Qed.

(** The check either passes, and then no checked parameter is supplied by
    name, or raises for a checked parameter that is. *)
Lemma check_args_spec params kwargs :
  (check_args params kwargs = Ok tt
   ∧ ∀ name kind, (name, kind) ∈ params →
       kind ≠ KEYWORD_ONLY → kind ≠ VAR_KEYWORD → kwargs !! name = None)
  ∨ (∃ name kind, check_args params kwargs = Raise (ValueError_reserved name)
       ∧ (name, kind) ∈ params
       ∧ kind ≠ KEYWORD_ONLY ∧ kind ≠ VAR_KEYWORD ∧ is_Some (kwargs !! name)).
Proof.
  induction params as [|[name kind] params IH].
  - left. split; [done|]. intros name kind Hin. by apply elem_of_nil in Hin.
  - assert (Hskip : check_args params kwargs = check_args ((name, kind) :: params) kwargs
                    ∧ (kind = KEYWORD_ONLY ∨ kind = VAR_KEYWORD ∨ kwargs !! name = None)
                    ∨ (kind ≠ KEYWORD_ONLY ∧ kind ≠ VAR_KEYWORD ∧ is_Some (kwargs !! name)
                       ∧ check_args ((name, kind) :: params) kwargs
                         = Raise (ValueError_reserved name))).
    { cbn [check_args].
      destruct (kwargs !! name) as [v|] eqn:Hlook.
      - destruct kind; try (left; split; [done | by auto]);
          right; (split; [done|]); (split; [done|]);
          (split; [by eexists|]);
          by rewrite bool_decide_eq_true_2 by (by eexists).
      - left. split; [|by auto].
        destruct kind; try done;
          by rewrite bool_decide_eq_false_2 by (by intros [? ?]). }
    destruct Hskip as [[Heq Hwhy]|(Hk1 & Hk2 & Hsome & Hraise)].
    + rewrite <- Heq. destruct IH as [[Hok Hnone]|(n & k & Hraise & Hin & Hrest)].
      * left. split; [done|]. intros n k Hin Hk1 Hk2.
        apply elem_of_cons in Hin as [Hhd|Hin]; [|by eapply Hnone].
        inversion Hhd; subst. by destruct Hwhy as [?|[?|?]].
      * right. exists n, k. split; [done|]. split; [|done].
        by apply list_elem_of_further.
    + right. exists name, kind. split; [done|]. split; [|done].
      apply list_elem_of_here.
Qed.

Lemma check_args_collision func args kwargs :
  (check_args (take (length args) (parameters func)) kwargs = Ok tt
   ∧ ¬ collision func args kwargs)
  ∨ (∃ name, check_args (take (length args) (parameters func)) kwargs
             = Raise (ValueError_reserved name)
             ∧ is_Some (kwargs !! name)
             ∧ collision func args kwargs).
Proof.
  destruct (check_args_spec (take (length args) (parameters func)) kwargs)
    as [[Hok Hnone]|(name & kind & Hraise & Hin & Hk1 & Hk2 & Hsome)].
  - left. split; [done|].
    intros (name & kind & Hin & Hk1 & Hk2 & Hsome).
    rewrite (Hnone _ _ Hin Hk1 Hk2) in Hsome. by destruct Hsome.
  - right. exists name. split; [done|]. split; [done|]. by exists name, kind.
Qed.

Lemma filtered_kwargs_fold kwargs names : ∀ (acc : gmap string pyval) key,
  fold_left
    (fun acc key =>
       match kwargs !! key with
       | Some v => <[key := v]> acc
       | None => acc
       end) names acc !! key
  = if decide (key ∈ names)
    then match kwargs !! key with Some v => Some v | None => acc !! key end
    else acc !! key.
Proof.
  induction names as [|n names IH]; intros acc key; cbn [fold_left].
  - rewrite decide_False; [done | apply not_elem_of_nil].
  - rewrite IH. destruct (decide (key ∈ names)) as [Hin|Hnotin].
    + rewrite decide_True by (by apply list_elem_of_further).
      destruct (kwargs !! key) eqn:Hkey; [done|].
      destruct (kwargs !! n) eqn:Hn; [|done].
      apply lookup_insert_ne. congruence.
    + destruct (decide (key = n)) as [->|Hne].
      * rewrite decide_True by apply list_elem_of_here.
        destruct (kwargs !! n); [apply lookup_insert_eq | done].
      * rewrite decide_False by (rewrite elem_of_cons; tauto).
        destruct (kwargs !! n); [by apply lookup_insert_ne | done].
Qed.

Lemma filtered_kwargs_lookup func kwargs key :
  filtered_kwargs func kwargs !! key
  = if decide (key ∈ declared_names func) then kwargs !! key else None.
Proof.
  unfold filtered_kwargs. rewrite filtered_kwargs_fold.
  fold (declared_names func). rewrite lookup_empty.
  destruct (decide _); [by destruct (kwargs !! key) | done].
Qed.

Lemma filtered_kwargs_restriction func kwargs :
  filtered_kwargs func kwargs = restriction func kwargs.
Proof.
  apply map_eq. intros key. rewrite filtered_kwargs_lookup.
  unfold restriction. destruct (decide (key ∈ declared_names func)) as [Hin|Hnotin].
  - destruct (kwargs !! key) as [v|] eqn:Hkey.
    + symmetry. by apply map_lookup_filter_Some.
    + symmetry. apply map_lookup_filter_None. by left.
  - symmetry. apply map_lookup_filter_None. right. intros v _. exact Hnotin.
Qed.

(** The value of [determine_kwargs] in terms of the check and the
    wildcard. *)
Lemma determine_kwargs_unfold func args kwargs :
  determine_kwargs func args kwargs =
    bind (check_args (take (length args) (parameters func)) kwargs) (fun _ =>
      Ok (if has_wildcard_kwargs func then kwargs
          else filtered_kwargs func kwargs)).
Proof.
  unfold determine_kwargs, determine.
  destruct (check_args _ kwargs) as [e|[]]; cbn [bind]; [done|].
  by destruct (has_wildcard_kwargs func).
Qed.

(** C3. When no positional argument collides with a named one,
    [determine_kwargs] returns [kwargs] unchanged for a callable that
    declares [**kwargs], and otherwise returns exactly the restriction of
    [kwargs] to the declared parameter names: every supplied key that is
    declared is kept with its value and no undeclared key is kept. *)
Theorem C3_determine_kwargs_filters func args kwargs :
  ¬ collision func args kwargs →
  (declares_wildcard func → determine_kwargs func args kwargs = Ok kwargs)
  ∧ (¬ declares_wildcard func →
     determine_kwargs func args kwargs = Ok (restriction func kwargs)
     ∧ (∀ key v, key ∈ declared_names func → kwargs !! key = Some v →
                 restriction func kwargs !! key = Some v)
     ∧ (∀ key, key ∉ declared_names func →
               restriction func kwargs !! key = None)).
Proof.
  intros Hfree. rewrite determine_kwargs_unfold.
  destruct (check_args_collision func args kwargs) as [[-> _]|(_ & _ & _ & Hcol)];
    [|done].
  cbn [bind]. split.
  - intros Hwild. apply has_wildcard_kwargs_spec in Hwild. by rewrite Hwild.
  - intros Hnowild.
    destruct (has_wildcard_kwargs func) eqn:Hw.
    { exfalso. by apply Hnowild, has_wildcard_kwargs_spec. }
    rewrite filtered_kwargs_restriction. split; [done|]. split.
    + intros key v Hin Hkey. by apply map_lookup_filter_Some.
    + intros key Hnotin. apply map_lookup_filter_None. right. by intros v _.
Qed.

Lemma f_signature_no_wildcard : ¬ declares_wildcard f_signature.
Proof.
  intros Hwild. apply has_wildcard_kwargs_spec in Hwild. discriminate Hwild.
Qed.

Lemma f_one_arg_no_collision :
  ¬ collision f_signature [PyInt 0] bcz_kwargs.
Proof.
  intros (name & kind & Hin & _ & _ & Hsome).
  apply list_elem_of_singleton in Hin. inversion Hin; subst.
  by destruct Hsome.
Qed.

Lemma C3_determine_kwargs_filters_witness :
  determine_kwargs g_signature [PyInt 0] bcz_kwargs = Ok bcz_kwargs
  ∧ determine_kwargs f_signature [PyInt 0] bcz_kwargs
    = Ok (restriction f_signature bcz_kwargs)
  ∧ restriction f_signature bcz_kwargs !! "b" = Some (PyInt 1)
  ∧ restriction f_signature bcz_kwargs !! "z" = None.
Proof.
  split; [|split; [|split]].
  - apply (C3_determine_kwargs_filters g_signature [PyInt 0] bcz_kwargs).
    + intros (name & kind & Hin & _ & _ & Hsome).
      apply list_elem_of_singleton in Hin. inversion Hin; subst.
      by destruct Hsome.
    + exists "kwargs". apply list_elem_of_further, list_elem_of_here.
  - apply (C3_determine_kwargs_filters f_signature [PyInt 0] bcz_kwargs
             f_one_arg_no_collision), f_signature_no_wildcard.
  - apply (C3_determine_kwargs_filters f_signature [PyInt 0] bcz_kwargs
             f_one_arg_no_collision); [apply f_signature_no_wildcard | | reflexivity].
    apply list_elem_of_further, list_elem_of_here.
  - apply (C3_determine_kwargs_filters f_signature [PyInt 0] bcz_kwargs
             f_one_arg_no_collision); [apply f_signature_no_wildcard|].
    unfold declared_names. cbn. intros Hin.
    repeat (apply elem_of_cons in Hin as [Heq|Hin]; [discriminate Heq|]).
    by apply elem_of_nil in Hin.
Defined.

(** C4. [KeywordParameters.determine], and with it [determine_kwargs],
    raises exactly when one of the first [len(args)] declared parameters
    that is neither keyword-only nor [**kwargs] has its name among the keys
    of [kwargs]; the error is the [ValueError] for such a name and no
    filtered mapping is returned; in every other case a result is
    returned. *)
Theorem C4_determine_raises_iff_collision func args kwargs :
  (raises (determine func args kwargs) = true ↔ collision func args kwargs)
  ∧ (raises (determine_kwargs func args kwargs) = true
     ↔ collision func args kwargs)
  ∧ (collision func args kwargs →
     ∃ name, is_Some (kwargs !! name)
             ∧ determine func args kwargs = Raise (ValueError_reserved name)
             ∧ determine_kwargs func args kwargs
               = Raise (ValueError_reserved name)
             ∧ class_of (ValueError_reserved name) = ValueError)
  ∧ (¬ collision func args kwargs →
     ∃ k, determine func args kwargs = Ok (KeywordParameters_init k)
          ∧ determine_kwargs func args kwargs = Ok k).
Proof.
  unfold determine_kwargs, determine.
  destruct (check_args_collision func args kwargs)
    as [[-> Hfree]|(name & -> & Hsome & Hcol)]; cbn [bind raises].
  - assert (Hok : ∃ k,
      (if has_wildcard_kwargs func then Ok (KeywordParameters_init kwargs)
       else Ok (KeywordParameters_init (filtered_kwargs func kwargs)))
      = Ok (KeywordParameters_init k)).
    { destruct (has_wildcard_kwargs func); by eexists. }
    destruct Hok as (k & ->). cbn [bind raises].
    split; [|split; [|split]]; try done.
    intros _. by exists k.
  - split; [|split; [|split]]; try done.
    intros _. by exists name.
Qed.

Lemma C4_determine_raises_iff_collision_witness :
  (∃ name, is_Some (bcz_kwargs !! name)
           ∧ determine f_signature [PyInt 0; PyInt 0] bcz_kwargs
             = Raise (ValueError_reserved name)
           ∧ determine_kwargs f_signature [PyInt 0; PyInt 0] bcz_kwargs
             = Raise (ValueError_reserved name)
           ∧ class_of (ValueError_reserved name) = ValueError)
  ∧ (∃ k, determine f_signature [PyInt 0] bcz_kwargs = Ok (KeywordParameters_init k)
          ∧ determine_kwargs f_signature [PyInt 0] bcz_kwargs = Ok k).
Proof.
  split.
  - apply (C4_determine_raises_iff_collision f_signature [PyInt 0; PyInt 0]
             bcz_kwargs).
    exists "b", POSITIONAL_OR_KEYWORD.
    split; [apply list_elem_of_further, list_elem_of_here|].
    split; [discriminate|]. split; [discriminate|]. by eexists.
  - apply (C4_determine_raises_iff_collision f_signature [PyInt 0] bcz_kwargs),
      f_one_arg_no_collision.
Defined.

Lemma check_args_mono params kwargs k :
  (∀ name, is_Some (k !! name) → is_Some (kwargs !! name)) →
  check_args params kwargs = Ok tt → check_args params k = Ok tt.
Proof.
  intros Hsub Hok.
  destruct (check_args_spec params kwargs)
    as [[_ Hnone]|(n & kd & Hraise & _)]; [|congruence].
  destruct (check_args_spec params k)
    as [[Hok' _]|(n & kd & _ & Hin & Hk1 & Hk2 & Hsome)]; [done|].
  apply Hsub in Hsome. rewrite (Hnone _ _ Hin Hk1 Hk2) in Hsome.
  by destruct Hsome.
Qed.

(** C10. [determine_kwargs] is idempotent: when it returns [k] for
    [kwargs], it returns [k] for [k]. *)
Theorem C10_determine_kwargs_idempotent func args kwargs k :
  determine_kwargs func args kwargs = Ok k →
  determine_kwargs func args k = Ok k.
Proof.
  rewrite !determine_kwargs_unfold. intros Hfirst.
  destruct (check_args _ kwargs) as [e|[]] eqn:Hcheck; cbn [bind] in Hfirst;
    [done|].
  inversion Hfirst as [Hk]. destruct (has_wildcard_kwargs func) eqn:Hwild.
  - by rewrite Hcheck.
  - rewrite (check_args_mono _ kwargs).
    + cbn [bind]. f_equal. apply map_eq. intros key.
      rewrite !filtered_kwargs_lookup. by destruct (decide _).
    + intros name. rewrite filtered_kwargs_lookup.
      destruct (decide _); [done | by intros [? ?]].
    + done.
Qed.

Lemma C10_determine_kwargs_idempotent_witness :
  determine_kwargs f_signature [PyInt 0] bcz_kwargs = Ok bc_kwargs
  ∧ determine_kwargs f_signature [PyInt 0] bc_kwargs = Ok bc_kwargs.
Proof.
  split; [reflexivity|].
  apply (C10_determine_kwargs_idempotent f_signature [PyInt 0] bcz_kwargs).
  reflexivity.
Defined.

End Determine.

(** ** The execution runner *)

Section RunnerProperties.

Context {S : Type} `{OutletEventAccessorsProtocol S}.

Implicit Types (g : generator S) (func : callable S) (sink : S).
Implicit Types (logger : Logger) (ys : list yield_value).

Lemma handle_spec y sink logger :
  handle y sink logger =
    (sink_after sink y,
     {| debug_enabled := debug_enabled logger;
        records := records logger ++ records_for (debug_enabled logger) y |}).
Proof.
  destruct logger as [debug recs], y as [m|v]; cbn.
  - unfold route. destruct (alias m); by rewrite app_nil_r.
  - unfold log, unknown_data_warning, full_value_debug; cbn.
    destruct debug; cbn; [by rewrite <- app_assoc | done].
Qed.

(** The loop resumes the generator after each value with the sink as the
    values so far left it, returns what the generator completes with, and
    leaves the sink and the logger as the values shaped them in order. *)
Lemma drain_spec g : ∀ sink logger,
  ∃ ys out,
    produces g (sinks_after sink ys) ys out
    ∧ drain g sink logger =
        (out,
         fold_left sink_after ys sink,
         {| debug_enabled := debug_enabled logger;
            records := records logger
                       ++ flat_map (records_for (debug_enabled logger)) ys |}).
Proof.
  induction g as [value | e | y resume IH]; intros sink logger.
  - exists [], (Ok value). split; [constructor|].
    destruct logger; cbn. by rewrite app_nil_r.
  - exists [], (Raise e). split; [constructor|].
    destruct logger; cbn. by rewrite app_nil_r.
  - cbn [drain]. rewrite handle_spec.
    destruct (IH (sink_after sink y) (sink_after sink y)
                {| debug_enabled := debug_enabled logger;
                   records := records logger
                              ++ records_for (debug_enabled logger) y |})
      as (ys & out & Hprod & Hdrain).
    exists (y :: ys), out. split.
    + cbn [sinks_after]. by constructor.
    + rewrite Hdrain. cbn. by rewrite <- app_assoc.
Qed.

(** What a generator yields and completes with is determined by the sinks
    it is resumed with. *)
Lemma produces_deterministic g : ∀ sink ys ys' out out',
  produces g (sinks_after sink ys) ys out →
  produces g (sinks_after sink ys') ys' out' →
  ys = ys' ∧ out = out'.
Proof.
  induction g as [value | e | y resume IH]; intros sink ys ys' out out' Hp Hp'.
  - by inversion Hp; inversion Hp'; subst.
  - by inversion Hp; inversion Hp'; subst.
  - inversion Hp as [| | y1 r1 s1 ss1 ys1 o1 Hrest Hg Hs Hy Ho]; subst.
    inversion Hp' as [| | y2 r2 s2 ss2 ys2 o2 Hrest' Hg' Hs' Hy' Ho']; subst.
    cbn [sinks_after] in Hs, Hs'. inversion Hs; inversion Hs'; subst.
    destruct (IH _ _ _ _ _ _ Hrest Hrest') as [-> ->]. done.
Qed.

Lemma fold_sink_after_metadata ys : ∀ sink,
  fold_left sink_after ys sink
  = fold_left sink_after (List.filter is_metadata ys) sink.
Proof.
  induction ys as [|[m|v] ys IH]; intros sink; cbn; [done | apply IH | apply IH].
Qed.

Lemma warnings_of_records debug ys :
  List.filter is_warning (flat_map (records_for debug) ys)
  = List.map unknown_data_warning
      (List.filter (fun y => negb (is_metadata y)) ys).
Proof.
  induction ys as [|[m|v] ys IH]; cbn; [done | apply IH |].
  destruct debug; cbn; by rewrite IH.
Qed.

(** C5. For a callable that is not a generator function, [run] returns
    exactly what the call [func( *args, **kwargs)] returns (or raises), and
    the runner itself touches neither the sink nor the logger. *)
Theorem C5_plain_function_result func sink logger args kwargs :
  isgeneratorfunction func = false →
  ∃ r, call func args kwargs sink = Completed r
       ∧ run (ExecutionCallableRunner func sink logger) args kwargs
         = (r, sink, logger).
Proof.
  intros Hplain. destruct func as [body|body]; [|discriminate Hplain].
  by exists (body args kwargs sink).
Qed.

(** C6. For a generator function, [run] drains the generator: it resumes
    it after every yielded value until it completes and returns what the
    generator returns; the values and the completion are the ones the
    generator produces when resumed this way; the sink it leaves is the
    initial one updated by the yielded values in yield order, where a
    metadata event merges its payload into the entry of its target and, when
    it has an alias, also records the target under the alias. *)
Theorem C6_generator_drained func sink logger args kwargs :
  isgeneratorfunction func = true →
  ∃ start ys out,
    call func args kwargs sink = GeneratorObject start
    ∧ produces (start sink) (sinks_after sink ys) ys out
    ∧ (run (ExecutionCallableRunner func sink logger) args kwargs).1.1 = out
    ∧ (run (ExecutionCallableRunner func sink logger) args kwargs).1.2
      = fold_left sink_after ys sink
    ∧ (∀ ys' out',
         produces (start sink) (sinks_after sink ys') ys' out' →
         ys' = ys ∧ out' = out)
    ∧ (∀ m s,
         sink_after s (YMetadata m) =
           match alias m with
           | Some a =>
               alias_add a (asset m) (extra m)
                 (extra_update (asset m) (extra m) s)
           | None => extra_update (asset m) (extra m) s
           end).
Proof.
  intros Hgen. destruct func as [body|body]; [discriminate Hgen|].
  destruct (drain_spec (body args kwargs sink) sink logger)
    as (ys & out & Hprod & Hdrain).
  exists (body args kwargs), ys, out. cbn [call ExecutionCallableRunner run].
  rewrite Hdrain. repeat split; try done.
  - by eapply produces_deterministic.
  - by eapply produces_deterministic.
Qed.

(** C7. For a generator function, every yielded value that is not metadata
    adds one warning to the logger, in yield order, and nothing else happens
    for it: the sink [run] leaves is the one the metadata events alone
    produce, the generator is resumed until it completes and [run] returns
    what the generator returns. *)
Theorem C7_unknown_values_skipped func sink logger args kwargs :
  isgeneratorfunction func = true →
  ∃ start ys out logger' new_records,
    call func args kwargs sink = GeneratorObject start
    ∧ produces (start sink) (sinks_after sink ys) ys out
    ∧ run (ExecutionCallableRunner func sink logger) args kwargs
      = (out, fold_left sink_after (List.filter is_metadata ys) sink, logger')
    ∧ records logger' = records logger ++ new_records
    ∧ List.filter is_warning new_records
      = List.map unknown_data_warning
          (List.filter (fun y => negb (is_metadata y)) ys)
    ∧ (∀ s v, sink_after s (YOther v) = s).
Proof.
  intros Hgen. destruct func as [body|body]; [discriminate Hgen|].
  destruct (drain_spec (body args kwargs sink) sink logger)
    as (ys & out & Hprod & Hdrain).
  exists (body args kwargs), ys, out. eexists. eexists.
  cbn [call ExecutionCallableRunner run].
  rewrite Hdrain, <- fold_sink_after_metadata.
  split; [done|]. split; [done|]. split; [reflexivity|].
  split; [reflexivity|]. split; [apply warnings_of_records | done].
Qed.

End RunnerProperties.

Lemma C5_plain_function_result_witness :
  ∃ r, call count_args [PyNone; PyNone] ∅ empty_store = Completed r
       ∧ run (ExecutionCallableRunner count_args empty_store quiet_logger)
           [PyNone; PyNone] ∅
         = (r, empty_store, quiet_logger).
Proof.
  apply (C5_plain_function_result count_args empty_store quiet_logger
           [PyNone; PyNone] ∅).
  reflexivity.
Defined.

Lemma C6_generator_drained_witness :
  ∃ start ys out,
    call emit_rows [] ∅ empty_store = GeneratorObject start
    ∧ produces (start empty_store) (sinks_after empty_store ys) ys out
    ∧ (run (ExecutionCallableRunner emit_rows empty_store quiet_logger) [] ∅).1.1
      = out
    ∧ (run (ExecutionCallableRunner emit_rows empty_store quiet_logger) [] ∅).1.2
      = fold_left sink_after ys empty_store
    ∧ (∀ ys' out',
         produces (start empty_store) (sinks_after empty_store ys') ys' out' →
         ys' = ys ∧ out' = out)
    ∧ (∀ m s,
         sink_after s (YMetadata m) =
           match alias m with
           | Some a =>
               alias_add a (asset m) (extra m)
                 (extra_update (asset m) (extra m) s)
           | None => extra_update (asset m) (extra m) s
           end).
Proof.
  apply (C6_generator_drained emit_rows empty_store quiet_logger [] ∅).
  reflexivity.
Defined.

Lemma C7_unknown_values_skipped_witness :
  ∃ start ys out logger' new_records,
    call emit_rows [] ∅ empty_store = GeneratorObject start
    ∧ produces (start empty_store) (sinks_after empty_store ys) ys out
    ∧ run (ExecutionCallableRunner emit_rows empty_store quiet_logger) [] ∅
      = (out,
         fold_left sink_after (List.filter is_metadata ys) empty_store,
         logger')
    ∧ records logger' = records quiet_logger ++ new_records
    ∧ List.filter is_warning new_records
      = List.map unknown_data_warning
          (List.filter (fun y => negb (is_metadata y)) ys)
    ∧ (∀ s v, sink_after s (YOther v) = s).
Proof.
  apply (C7_unknown_values_skipped emit_rows empty_store quiet_logger [] ∅).
  reflexivity.
Defined.

(** The run of the example generator, evaluated: it returns ["done"], the
    sink holds the payload of the event under its target and the target
    under the alias, and the logger holds the one warning for 42. *)
Example emit_rows_run :
  run (ExecutionCallableRunner emit_rows empty_store quiet_logger) [] ∅
  = (Ok (PyStr "done"),
     OutletEventStore
       {["s3://bucket/out" := {["rows" := PyInt 3]}]}
       [("latest", "s3://bucket/out", {["rows" := PyInt 3]})],
     Logger_init false [unknown_data_warning (YOther (PyInt 42))]).
Proof. vm_compute. reflexivity. Qed.

(** * Further properties *)

(** ** Context export *)

Section ContextExportFurther.

Implicit Types (params : gmap string string) (context : gmap string pyval).
Implicit Types (op : pyval * string * mapping_key) (fmt : name_format).

Lemma add_context_params_ok_iff env items : ∀ params,
  raises (add_context_params env items params) = false
  ↔ Forall (fun kv => is_str kv.1 && is_str kv.2 = true) items.
Proof.
  induction items as [|[key value] items IH]; intros params; cbn [add_context_params].
  - split; [by constructor | done].
  - rewrite Forall_cons. destruct key; cbn; try (split; [done | by intros [? _]]).
    destruct value; cbn; try (split; [done | by intros [? _]]).
    rewrite IH. tauto.
Qed.


Lemma join_items_ok_iff items : ∀ index,
  raises (join_items index items) = false
  ↔ Forall (fun v => is_str v = true) items.
Proof.
  induction items as [|v items IH]; intros index; cbn [join_items].
  - split; [by constructor | done].
  - rewrite Forall_cons.
    destruct v; try (split; [done | intros [Hbad _]; cbn in Hbad; done]).
    rewrite <- (IH (Datatypes.S index)).
    destruct (join_items (Datatypes.S index) items); cbn [bind raises];
      (split; [intros ?; split; done | intros [_ ?]; done]).
Qed.


Lemma serialize_ok_iff v :
  raises (serialize v) = false
  ↔ ∀ items, v = PyList items → Forall (fun x => is_str x = true) items.
Proof.
  destruct v; cbn [serialize raises]; try (split; [by intros _ ? [=] | done]).
  unfold join. split.
  - intros Hok items0 [= <-]. apply (join_items_ok_iff items 0).
    by destruct (join_items 0 items).
  - intros Hall. specialize (Hall items eq_refl).
    apply (join_items_ok_iff items 0) in Hall.
    by destruct (join_items 0 items).
Qed.


Lemma export_ops_ok_iff fmt ops : ∀ params,
  raises (export_ops fmt ops params) = false
  ↔ Forall (fun op => op_active op = true → raises (serialize (op_attr op)) = false) ops.
Proof.
  induction ops as [|op ops IH]; intros params; cbn [export_ops].
  - split; [by constructor | done].
  - rewrite Forall_cons. destruct (op_active op) eqn:Hact.
    + rewrite (export_attribute_active _ _ _ Hact).
      destruct (serialize (op_attr op)); cbn.
      * split; [done | intros [Hbad _]; by specialize (Hbad eq_refl)].
      * rewrite IH. tauto.
    + rewrite (export_attribute_inactive _ _ _ Hact). cbn. rewrite IH.
      split; [by intros ? | by intros [_ ?]].
Qed.


Lemma export_ops_union fmt ops : ∀ params params',
  export_ops fmt ops params = Ok params' →
  ∃ standard, export_ops fmt ops ∅ = Ok standard ∧ params' = standard ∪ params.
Proof.
  induction ops as [|op ops IH]; intros params params'; cbn [export_ops].
  - intros [= <-]. exists ∅. split; [done|]. by rewrite (left_id_L ∅ (∪)).
  - destruct (op_active op) eqn:Hact.
    + rewrite !(export_attribute_active _ _ _ Hact).
      destruct (serialize (op_attr op)) as [e|s]; cbn [bind]; [done|].
      intros Hrun. destruct (IH _ _ Hrun) as (q & Hq & ->).
      destruct (export_ops fmt ops (<[op_name fmt op:=s]> ∅)) as [e|q0] eqn:Hq0.
      { apply (f_equal raises) in Hq. cbn [raises] in Hq.
        rewrite export_ops_ok_iff in Hq.
        rewrite <- (export_ops_ok_iff fmt ops (<[op_name fmt op:=s]> ∅)) in Hq.
        by rewrite Hq0 in Hq. }
      destruct (IH _ _ Hq0) as (q' & Hq' & ->).
      rewrite Hq in Hq'. injection Hq' as <-.
      exists (q ∪ <[op_name fmt op:=s]> ∅). split; [done|].
      rewrite insert_empty, <- (assoc_L (∪)).
      by rewrite <- insert_union_singleton_l.
    + rewrite !(export_attribute_inactive _ _ _ Hact). cbn [bind]. apply IH.
Qed.

Lemma export_ops_key_named fmt ops standard name :
  export_ops fmt ops ∅ = Ok standard →
  is_Some (standard !! name) →
  ∃ op, op ∈ ops ∧ op_active op = true ∧ op_name fmt op = name.
Proof.
  intros Hrun Hsome.
  destruct (decide (name ∈ List.map (op_name fmt) (List.filter op_active ops)))
    as [Hin|Hnotin].
  - apply list_elem_of_In, in_map_iff in Hin as (op & Hname & Hin).
    apply filter_In in Hin as [Hin Hact].
    exists op. by rewrite list_elem_of_In.
  - rewrite (export_ops_lookup_other _ _ _ _ name Hrun), lookup_empty in Hsome.
    + by destruct Hsome.
    + intros op Hin Hact Hname. apply Hnotin. rewrite <- Hname.
      apply list_elem_of_In, in_map, filter_In. by rewrite <- list_elem_of_In.
Qed.

Lemma prefix_append p : ∀ s, String.prefix p (p +:+ s) = true.
Proof.
  induction p as [|a p IH]; intros s.
  - by destruct s.
  - change (String a p +:+ s) with (String a (p +:+ s)).
    change (String.prefix (String a p) (String a (p +:+ s)))
      with (if ascii_dec a a then String.prefix p (p +:+ s) else false).
    destruct (ascii_dec a a); [apply IH | done].
Qed.

Lemma normalize_key_has_prefix env k :
  startswith (normalize_key env k) (prefix_of env) = true.
Proof.
  rewrite normalize_key_prefix.
  destruct (startswith k (prefix_of env)) eqn:Hk; [done|].
  apply prefix_append.
Qed.

Lemma op_name_has_prefix env op :
  startswith (op_name (format_of env) op) (prefix_of env) = true.
Proof. destruct op as [[subject attr] key]. by destruct env, key. Qed.



(** The export returns exactly when every extra variable of the settings
    hook has a string key and a string value and every list attribute that is
    exported holds strings only. *)
Theorem export_succeeds_iff settings context env :
  raises (context_to_airflow_vars settings context env) = false
  ↔ Forall (fun kv => is_str kv.1 && is_str kv.2 = true)
      (get_airflow_context_vars settings context)
    ∧ Forall (fun op => op_active op = true →
                ∀ items, op_attr op = PyList items →
                         Forall (fun x => is_str x = true) items)
        (context_ops context).
Proof.
  unfold context_to_airflow_vars.
  rewrite <- (add_context_params_ok_iff env _ ∅).
  destruct (add_context_params env _ ∅) as [e0|params0]; cbn [bind raises].
  - split; [done | by intros [? _]].
  - rewrite export_ops_ok_iff. split.
    + intros Hall. split; [done|]. eapply Forall_impl; [exact Hall|].
      intros op Hop Hact. by apply serialize_ok_iff, Hop.
    + intros [_ Hall]. eapply Forall_impl; [exact Hall|].
      intros op Hop Hact. by apply serialize_ok_iff, Hop.
Qed.

(** Both forms of the export succeed together, and an exported standard
    attribute has the same value under its dotted name and under its
    environment name. *)
Theorem export_forms_agree settings context env env' params :
  context_to_airflow_vars settings context env = Ok params →
  ∃ params',
    context_to_airflow_vars settings context env' = Ok params'
    ∧ ∀ op, op ∈ context_ops context → op_active op = true →
        params !! op_name (format_of env) op
        = params' !! op_name (format_of env') op.
Proof.
  intros Hrun.
  assert (Hok : raises (context_to_airflow_vars settings context env') = false).
  { apply (f_equal raises) in Hrun. cbn in Hrun.
    unfold context_to_airflow_vars in *.
    destruct (add_context_params env _ ∅) as [e0|params0] eqn:Hextra;
      cbn [bind] in Hrun; [done|].
    apply (f_equal raises) in Hextra. cbn in Hextra.
    rewrite add_context_params_ok_iff in Hextra.
    rewrite <- (add_context_params_ok_iff env' _ ∅) in Hextra.
    destruct (add_context_params env' _ ∅) as [e0|params0']; [done|].
    cbn [bind]. rewrite export_ops_ok_iff in Hrun. by rewrite export_ops_ok_iff. }
  destruct (context_to_airflow_vars settings context env') as [e|params'] eqn:Hrun';
    [done|].
  exists params'. split; [done|]. intros op Hin Hact.
  destruct (context_to_airflow_vars_standard _ _ _ _ _ Hrun Hin) as (? & _ & Hop).
  destruct (context_to_airflow_vars_standard _ _ _ _ _ Hrun' Hin) as (? & _ & Hop').
  rewrite Hact in Hop, Hop'.
  destruct Hop as (s & Hs & ->), Hop' as (s' & Hs' & ->). congruence.
Qed.

Lemma export_forms_agree_witness :
  ∃ params',
    context_to_airflow_vars team_context_vars full_context true = Ok params'
    ∧ ∀ op, op ∈ context_ops full_context → op_active op = true →
        (<["airflow.ctx.dag_email" := "a@example.com,b@example.com"]>
         (<["airflow.ctx.dag_owner" := "bob"]>
         (<["airflow.ctx.dag_id" := "d1"]>
         (<["airflow.ctx.task_id" := "t1"]>
         (<["airflow.ctx.logical_date" := "2024-01-02T03:04:05+00:00"]>
         (<["airflow.ctx.dag_run_id" := "manual__2024-01-02"]>
         (<["airflow.ctx.team" := "data"]>
         (<["airflow.ctx.region" := "eu"]> (∅ : gmap string string)))))))))
          !! op_name (format_of false) op
        = params' !! op_name (format_of true) op.
Proof.
  apply (export_forms_agree team_context_vars full_context false true).
  vm_compute. reflexivity.
Defined.

(** Every key of the export starts with the prefix of the selected form,
    [airflow.ctx.] or [AIRFLOW_CTX_]. *)
Theorem export_keys_prefixed settings context env params name :
  context_to_airflow_vars settings context env = Ok params →
  is_Some (params !! name) →
  startswith name (prefix_of env) = true.
Proof.
  unfold context_to_airflow_vars. intros Hrun Hsome.
  destruct (add_context_params env _ ∅) as [e0|extras] eqn:Hextra;
    cbn [bind] in Hrun; [done|].
  fold (format_of env) in Hrun.
  destruct (export_ops_union _ _ _ _ Hrun) as (standard & Hstd & ->).
  apply lookup_union_is_Some in Hsome as [Hsome|Hsome].
  - destruct (export_ops_key_named _ _ _ _ Hstd Hsome) as (op & _ & _ & <-).
    apply op_name_has_prefix.
  - apply (add_context_params_is_Some _ _ _ _ name Hextra) in Hsome.
    destruct Hsome as [Hempty|(k & v & _ & <-)].
    + rewrite lookup_empty in Hempty. by destruct Hempty.
    + apply normalize_key_has_prefix.
Qed.

Lemma export_keys_prefixed_witness :
  startswith "AIRFLOW_CTX_TEAM" (prefix_of true) = true.
Proof.
  destruct (context_to_airflow_vars team_context_vars alice_context true)
    as [e|params] eqn:Hrun; [by vm_compute in Hrun|].
  apply (export_keys_prefixed team_context_vars alice_context true params
           "AIRFLOW_CTX_TEAM" Hrun).
  vm_compute in Hrun. injection Hrun as <-. by eexists.
Defined.

(** Normalizing the key of an extra variable twice is the same as
    normalizing it once: a normalized key is kept as it is. *)
Theorem normalize_key_idempotent env k :
  normalize_key env (normalize_key env k) = normalize_key env k.
Proof.
  rewrite (normalize_key_prefix env (normalize_key env k)).
  by rewrite normalize_key_has_prefix.
Qed.

(** The two columns of the name table follow the normalization of extra
    variables: the part of a standard key's dotted name after the prefix is
    normalized to that standard key's name in either form. *)
Theorem short_name_normalizes_to_standard_key key short env :
  AIRFLOW_VAR_NAME_FORMAT_MAPPING key default_format
    = DEFAULT_FORMAT_PREFIX +:+ short →
  normalize_key env short = AIRFLOW_VAR_NAME_FORMAT_MAPPING key (format_of env).
Proof.
  intros Hname. destruct key; cbv in Hname; injection Hname as <-;
    by destruct env.
Qed.

Lemma short_name_normalizes_to_standard_key_witness :
  normalize_key true "logical_date" = "AIRFLOW_CTX_LOGICAL_DATE".
Proof.
  apply (short_name_normalizes_to_standard_key AIRFLOW_CONTEXT_LOGICAL_DATE
           "logical_date" true).
  reflexivity.
Defined.

(** A context without [task], [task_instance] and [dag_run] exports the
    extra variables of the settings hook and nothing else. *)
Theorem export_without_subjects settings context env :
  context !! "task" = None →
  context !! "task_instance" = None →
  context !! "dag_run" = None →
  context_to_airflow_vars settings context env
  = add_context_params env (get_airflow_context_vars settings context) ∅.
Proof.
  intros Htask Hti Hrun. unfold context_to_airflow_vars, context_ops, context_get.
  rewrite Htask, Hti, Hrun.
  by destruct (add_context_params env _ ∅).
Qed.

Lemma export_without_subjects_witness :
  context_to_airflow_vars team_context_vars ∅ false
  = add_context_params false (get_airflow_context_vars team_context_vars ∅) ∅.
Proof.
  apply (export_without_subjects team_context_vars ∅ false); reflexivity.
Defined.

(** The export is the export of the standard keys alone (the one made when
    the settings hook returns nothing) laid over the normalized extra
    variables. *)
Theorem export_standard_over_extras settings context env params :
  context_to_airflow_vars settings context env = Ok params →
  ∃ standard extras,
    context_to_airflow_vars no_context_vars context env = Ok standard
    ∧ add_context_params env (get_airflow_context_vars settings context) ∅
      = Ok extras
    ∧ params = standard ∪ extras.
Proof.
  unfold context_to_airflow_vars. intros Hrun.
  destruct (add_context_params env _ ∅) as [e0|extras] eqn:Hextra;
    cbn [bind] in Hrun; [done|].
  destruct (export_ops_union _ _ _ _ Hrun) as (standard & Hstd & ->).
  by exists standard, extras.
Qed.

Lemma export_standard_over_extras_witness :
  ∃ standard extras,
    context_to_airflow_vars no_context_vars alice_context false = Ok standard
    ∧ add_context_params false
        (get_airflow_context_vars owner_context_var alice_context) ∅
      = Ok extras
    ∧ <["airflow.ctx.dag_owner" := "alice"]>
        (<["airflow.ctx.dag_id" := "d1"]>
        (<["airflow.ctx.try_number" := "2"]> (∅ : gmap string string)))
      = standard ∪ extras.
Proof.
  apply (export_standard_over_extras owner_context_var alice_context false).
  reflexivity.
Defined.

End ContextExportFurther.

(** ** Keyword filtering *)

Section DetermineFurther.

Implicit Types (func : signature) (args : list pyval).
Implicit Types (kwargs : gmap string pyval).

Lemma check_args_app l1 l2 kwargs :
  check_args (l1 ++ l2) kwargs
  = bind (check_args l1 kwargs) (fun _ => check_args l2 kwargs).
Proof.
  induction l1 as [|[name kind] l1 IH]; [done|].
  cbn [app check_args].
  destruct kind; try done;
    by destruct (bool_decide (is_Some (kwargs !! name))).
Qed.

Lemma check_args_ext params kwargs kwargs' :
  (∀ name kind, (name, kind) ∈ params → kwargs !! name = kwargs' !! name) →
  check_args params kwargs = check_args params kwargs'.
Proof.
  induction params as [|[name kind] params IH]; intros Hagree; [done|].
  cbn [check_args].
  rewrite (Hagree name kind) by apply list_elem_of_here.
  rewrite IH; [done|]. intros n k Hin. eapply Hagree, list_elem_of_further, Hin.
Qed.

Lemma check_args_empty params : check_args params ∅ = Ok tt.
Proof.
  destruct (check_args_spec params ∅)
    as [[Hok _]|(name & kind & _ & _ & _ & _ & Hsome)]; [done|].
  rewrite lookup_empty in Hsome. by destruct Hsome.
Qed.

(** What [determine_kwargs] returns, it returns again when it is given its
    own result. *)
Lemma determine_kwargs_fixpoint func args kwargs k :
  determine_kwargs func args kwargs = Ok k →
  determine_kwargs func args k = Ok k.
Proof.
  rewrite !determine_kwargs_unfold. intros Hfirst.
  destruct (check_args _ kwargs) as [e|[]] eqn:Hcheck; cbn [bind] in Hfirst;
    [done|].
  injection Hfirst as Hk. destruct (has_wildcard_kwargs func) eqn:Hwild.
  - subst k. by rewrite Hcheck.
  - subst k. rewrite (check_args_mono _ kwargs).
    + cbn [bind]. f_equal. apply map_eq. intros key.
      rewrite !filtered_kwargs_lookup. by destruct (decide _).
    + intros name. rewrite filtered_kwargs_lookup.
      destruct (decide _); [done | by intros [? ?]].
    + done.
Qed.

(** [determine_kwargs] never adds or changes an entry: its result is a part
    of [kwargs]. *)
Theorem determine_kwargs_subseteq func args kwargs k :
  determine_kwargs func args kwargs = Ok k → k ⊆ kwargs.
Proof.
  rewrite determine_kwargs_unfold.
  destruct (check_args _ kwargs) as [e|[]]; cbn [bind]; [done|].
  intros [= <-]. destruct (has_wildcard_kwargs func); [done|].
  rewrite filtered_kwargs_restriction. apply map_filter_subseteq.
Qed.

Lemma determine_kwargs_subseteq_witness : bc_kwargs ⊆ bcz_kwargs.
Proof.
  apply (determine_kwargs_subseteq f_signature [PyInt 0] bcz_kwargs bc_kwargs).
  reflexivity.
Defined.

(** With no keyword arguments [determine_kwargs] never raises, whatever the
    callable and the positional arguments, and returns the empty mapping. *)
Theorem determine_kwargs_empty func args :
  determine_kwargs func args ∅ = Ok ∅.
Proof.
  rewrite determine_kwargs_unfold, check_args_empty. cbn [bind].
  destruct (has_wildcard_kwargs func); [done|]. f_equal.
  apply map_eq. intros key. rewrite filtered_kwargs_lookup, lookup_empty.
  by destruct (decide _).
Qed.

(** Passing fewer positional arguments never turns a result into an error
    and does not change the result: the positional arguments only decide
    which parameters are checked for a collision.  In particular a call that
    succeeds with some positional arguments succeeds with none. *)
Theorem determine_kwargs_fewer_args func args args' kwargs k :
  (length args ≤ length args')%nat →
  determine_kwargs func args' kwargs = Ok k →
  determine_kwargs func args kwargs = Ok k.
Proof.
  intros Hle. rewrite !determine_kwargs_unfold.
  replace (length args') with (length args + (length args' - length args))%nat
    by lia.
  rewrite <- take_take_drop, check_args_app.
  destruct (check_args (take (length args) (parameters func)) kwargs) as [e|[]];
    cbn [bind]; [done|].
  by destruct (check_args _ kwargs) as [e|[]].
Qed.

Lemma determine_kwargs_fewer_args_witness :
  determine_kwargs f_signature [] bc_kwargs = Ok bc_kwargs.
Proof.
  apply (determine_kwargs_fewer_args f_signature [] [PyInt 0] bc_kwargs).
  - cbn. lia.
  - reflexivity.
Defined.

End DetermineFurther.

(** ** The forwarding wrapper *)

Section WrapperProperties.

Context {S : Type}.

Implicit Types (func : py_function S) (args : list pyval).
Implicit Types (kwargs : gmap string pyval) (sink : S).

(** On a collision the wrapper raises the [ValueError] of the check, and
    the wrapped callable is not called. *)
Theorem make_kwargs_callable_collision func args kwargs sink :
  collision (inspect_signature func) args kwargs →
  ∃ name,
    is_Some (kwargs !! name)
    ∧ invoke (make_kwargs_callable func) args kwargs sink
      = Completed (Raise (ValueError_reserved name)).
Proof.
  intros Hcol. cbn [make_kwargs_callable invoke].
  rewrite determine_kwargs_unfold.
  destruct (check_args_collision (inspect_signature func) args kwargs)
    as [[_ Hfree]|(name & -> & Hsome & _)]; [done|].
  by exists name.
Qed.

(** When nothing collides and the callable declares [**kwargs], or every
    key of [kwargs] is a declared parameter name, the wrapper calls the
    callable with the arguments it was given. *)
Theorem make_kwargs_callable_transparent func args kwargs sink :
  ¬ collision (inspect_signature func) args kwargs →
  declares_wildcard (inspect_signature func)
  ∨ (∀ key, is_Some (kwargs !! key) →
            key ∈ declared_names (inspect_signature func)) →
  invoke (make_kwargs_callable func) args kwargs sink
  = invoke func args kwargs sink.
Proof.
  intros Hfree Hall. cbn [make_kwargs_callable invoke].
  rewrite determine_kwargs_unfold.
  destruct (check_args_collision (inspect_signature func) args kwargs)
    as [[-> _]|(_ & _ & _ & Hcol)]; [|done].
  cbn [bind].
  destruct (has_wildcard_kwargs (inspect_signature func)) eqn:Hwild; [done|].
  destruct Hall as [Hdecl|Hall].
  { apply has_wildcard_kwargs_spec in Hdecl. congruence. }
  f_equal. apply map_eq. intros key. rewrite filtered_kwargs_lookup.
  destruct (decide _) as [|Hnotin]; [done|].
  destruct (kwargs !! key) eqn:Hkey; [|done].
  exfalso. apply Hnotin, Hall. by rewrite Hkey.
Qed.

(** For a callable without [**kwargs] the wrapper looks at the declared
    names only: keyword mappings that agree on them give the same call. *)
Theorem make_kwargs_callable_ignores_undeclared func args kwargs kwargs' sink :
  ¬ declares_wildcard (inspect_signature func) →
  (∀ key, key ∈ declared_names (inspect_signature func) →
          kwargs !! key = kwargs' !! key) →
  invoke (make_kwargs_callable func) args kwargs sink
  = invoke (make_kwargs_callable func) args kwargs' sink.
Proof.
  intros Hnowild Hagree. cbn [make_kwargs_callable invoke].
  rewrite !determine_kwargs_unfold.
  rewrite (check_args_ext _ kwargs kwargs').
  - destruct (check_args _ kwargs') as [e|[]]; cbn [bind]; [done|].
    destruct (has_wildcard_kwargs (inspect_signature func)) eqn:Hwild.
    { exfalso. by apply Hnowild, has_wildcard_kwargs_spec. }
    f_equal. apply map_eq. intros key. rewrite !filtered_kwargs_lookup.
    destruct (decide _); [by apply Hagree | done].
  - intros name kind Hin. apply Hagree.
    apply subseteq_take in Hin. unfold declared_names.
    apply list_elem_of_In, in_map_iff. exists (name, kind).
    split; [done | by apply list_elem_of_In].
Qed.

(** Wrapping twice is the same as wrapping once: the wrapper keeps the
    signature of the callable, and filtering filtered keywords changes
    nothing. *)
Theorem make_kwargs_callable_idempotent func args kwargs sink :
  inspect_signature (make_kwargs_callable func) = inspect_signature func
  ∧ invoke (make_kwargs_callable (make_kwargs_callable func)) args kwargs sink
    = invoke (make_kwargs_callable func) args kwargs sink.
Proof.
  split; [done|]. cbn [make_kwargs_callable invoke inspect_signature].
  destruct (determine_kwargs (inspect_signature func) args kwargs) as [e|k] eqn:Hk;
    [done|].
  by rewrite (determine_kwargs_fixpoint _ _ _ _ Hk).
Qed.

End WrapperProperties.

Lemma f_function_no_wildcard :
  ¬ declares_wildcard (inspect_signature f_function).
Proof. apply f_signature_no_wildcard. Qed.

Lemma make_kwargs_callable_collision_witness :
  ∃ name,
    is_Some (bcz_kwargs !! name)
    ∧ invoke (make_kwargs_callable f_function) [PyInt 0; PyInt 0] bcz_kwargs
        empty_store
      = Completed (Raise (ValueError_reserved name)).
Proof.
  apply (make_kwargs_callable_collision f_function [PyInt 0; PyInt 0]
           bcz_kwargs empty_store).
  exists "b", POSITIONAL_OR_KEYWORD.
  split; [apply list_elem_of_further, list_elem_of_here|].
  split; [discriminate|]. split; [discriminate|]. by eexists.
Defined.

Lemma make_kwargs_callable_transparent_witness :
  invoke (make_kwargs_callable f_function) [PyInt 0] bc_kwargs empty_store
  = invoke f_function [PyInt 0] bc_kwargs empty_store.
Proof.
  apply (make_kwargs_callable_transparent f_function [PyInt 0] bc_kwargs
           empty_store).
  - intros (name & kind & Hin & _ & _ & Hsome).
    apply list_elem_of_singleton in Hin. inversion Hin; subst.
    by destruct Hsome.
  - right. intros key Hsome. unfold declared_names. cbn.
    destruct (decide (key = "b")) as [->|Hb];
      [apply list_elem_of_further, list_elem_of_here|].
    destruct (decide (key = "c")) as [->|Hc];
      [apply list_elem_of_further, list_elem_of_further, list_elem_of_here|].
    exfalso. unfold bc_kwargs in Hsome.
    rewrite !lookup_insert_ne, lookup_empty in Hsome by done.
    by destruct Hsome.
Defined.

Lemma make_kwargs_callable_ignores_undeclared_witness :
  invoke (make_kwargs_callable f_function) [PyInt 0] bcz_kwargs empty_store
  = invoke (make_kwargs_callable f_function) [PyInt 0] bc_kwargs empty_store.
Proof.
  apply (make_kwargs_callable_ignores_undeclared f_function [PyInt 0]
           bcz_kwargs bc_kwargs empty_store).
  - apply f_function_no_wildcard.
  - intros key Hin. unfold declared_names in Hin. cbn in Hin.
    repeat (apply elem_of_cons in Hin as [->|Hin]; [reflexivity|]).
    by apply elem_of_nil in Hin.
Defined.

(** ** The execution runner *)

Section RunnerFurther.

Context {S : Type} `{OutletEventAccessorsProtocol S}.

Implicit Types (func : callable S) (sink : S) (logger : Logger).
Implicit Types (ys : list yield_value).

Lemma records_for_quiet ys :
  flat_map (records_for false) ys
  = List.map unknown_data_warning
      (List.filter (fun y => negb (is_metadata y)) ys).
Proof.
  induction ys as [|[m|v] ys IH]; cbn; [done | apply IH | by rewrite IH].
Qed.

Lemma records_for_debug ys :
  flat_map (records_for true) ys
  = flat_map (fun y => [unknown_data_warning y; full_value_debug y])
      (List.filter (fun y => negb (is_metadata y)) ys).
Proof.
  induction ys as [|[m|v] ys IH]; cbn; [done | apply IH | by rewrite IH].
Qed.

Lemma records_for_metadata debug ys :
  forallb is_metadata ys = true → flat_map (records_for debug) ys = [].
Proof.
  induction ys as [|[m|v] ys IH]; cbn; [done | apply IH | done].
Qed.

(** What a run of a generator function leaves in the logger: the records
    it held, then for every yielded value that is not metadata, in yield
    order, the warning and, only when DEBUG is enabled, the record of the
    full value right after it.  The logger's level is not changed, and a
    generator that yields metadata only leaves the logger as it was. *)
Theorem run_log_records func sink logger args kwargs :
  isgeneratorfunction func = true →
  ∃ start ys out sink' logger',
    call func args kwargs sink = GeneratorObject start
    ∧ produces (start sink) (sinks_after sink ys) ys out
    ∧ run (ExecutionCallableRunner func sink logger) args kwargs
      = (out, sink', logger')
    ∧ debug_enabled logger' = debug_enabled logger
    ∧ (debug_enabled logger = false →
       records logger'
       = records logger
         ++ List.map unknown_data_warning
              (List.filter (fun y => negb (is_metadata y)) ys))
    ∧ (debug_enabled logger = true →
       records logger'
       = records logger
         ++ flat_map (fun y => [unknown_data_warning y; full_value_debug y])
              (List.filter (fun y => negb (is_metadata y)) ys))
    ∧ (forallb is_metadata ys = true → logger' = logger).
Proof.
  intros Hgen. destruct func as [body|body]; [discriminate Hgen|].
  destruct (drain_spec (body args kwargs sink) sink logger)
    as (ys & out & Hprod & Hdrain).
  exists (body args kwargs), ys, out. eexists. eexists.
  cbn [call ExecutionCallableRunner run]. rewrite Hdrain.
  split; [done|]. split; [done|]. split; [reflexivity|]. cbn [debug_enabled records].
  split; [done|]. split; [|split].
  - intros ->. by rewrite records_for_quiet.
  - intros ->. by rewrite records_for_debug.
  - intros Hmeta. rewrite (records_for_metadata _ _ Hmeta), app_nil_r.
    by destruct logger.
Qed.

End RunnerFurther.

Lemma run_log_records_witness :
  ∃ start ys out sink' logger',
    call emit_rows [] ∅ empty_store = GeneratorObject start
    ∧ produces (start empty_store) (sinks_after empty_store ys) ys out
    ∧ run (ExecutionCallableRunner emit_rows empty_store quiet_logger) [] ∅
      = (out, sink', logger')
    ∧ debug_enabled logger' = debug_enabled quiet_logger
    ∧ (debug_enabled quiet_logger = false →
       records logger'
       = records quiet_logger
         ++ List.map unknown_data_warning
              (List.filter (fun y => negb (is_metadata y)) ys))
    ∧ (debug_enabled quiet_logger = true →
       records logger'
       = records quiet_logger
         ++ flat_map (fun y => [unknown_data_warning y; full_value_debug y])
              (List.filter (fun y => negb (is_metadata y)) ys))
    ∧ (forallb is_metadata ys = true → logger' = quiet_logger).
Proof.
  apply (run_log_records emit_rows empty_store quiet_logger [] ∅).
  reflexivity.
Defined.
